(** * Vp8Streamer: the encode session of [simple_encoder.c]

    A shallow embedding of [src/xcode/Vp8Streamer/simple_encoder.c] and the
    properties of the encode session stated in the specification.

    The file drives libvpx, which is not part of the sources: the codec is an
    [Engine], a record of the library entry points the file calls.  The file's
    static variables, the standard output and a log of the library calls form
    the [world] that every function threads. *)

From Stdlib Require Import ZArith List String Ascii Lia Bool.
From stdpp Require Import base list.
Import ListNotations.
Local Open Scope Z_scope.

(** ** C integer types *)

Module CInt.

(** Value of [z] after conversion to an unsigned type of [bits] bits. *)
Definition wrap_unsigned (bits z : Z) : Z := z mod 2 ^ bits.

(** Value of [z] in a two's-complement signed type of [bits] bits.  An
    overflowing signed operation, undefined in C, is given the wrapped
    value the target compilers produce. *)
Definition wrap_signed (bits z : Z) : Z :=
  (z + 2 ^ (bits - 1)) mod 2 ^ bits - 2 ^ (bits - 1).

(** [unsigned int] and [int] are 32 bits wide; [long] and [size_t] are
    64 bits wide (LP64, the data model of arm64 and x86_64). *)
Definition to_uint : Z -> Z := wrap_unsigned 32.
Definition to_int : Z -> Z := wrap_signed 32.
Definition to_long : Z -> Z := wrap_signed 64.
Definition to_size_t : Z -> Z := wrap_unsigned 64.

(** The byte stored by [mem[i] = val] in a [char] array. *)
Definition to_byte : Z -> Z := wrap_unsigned 8.

Definition INT_MAX : Z := 2 ^ 31 - 1.
Definition LONG_MAX : Z := 2 ^ 63 - 1.
Definition UINT_MAX : Z := 2 ^ 32 - 1.

End CInt.
Import CInt.

(** ** Little-endian stores into a [char] buffer *)

(** [mem[i] = val]: a store outside the buffer is left out (stdpp's insert
    leaves the list as it is).  The stores of [write_ivf_file_header] cover
    its 32-byte buffer exactly, see [fill_ivf_file_header_bytes]. *)
Definition store (mem : list Z) (i : nat) (val : Z) : list Z :=
  <[i := to_byte val]> mem.

(** [mem_put_le16(mem + off, val)]; the parameter [val] is an
    [unsigned int], so the argument is converted on entry. *)
Definition mem_put_le16 (mem : list Z) (off : nat) (val : Z) : list Z :=
  let val := to_uint val in
  let mem := store mem off val in
  let mem := store mem (off + 1) (Z.shiftr val 8) in
  mem.

(** [mem_put_le32(mem + off, val)] *)
Definition mem_put_le32 (mem : list Z) (off : nat) (val : Z) : list Z :=
  let val := to_uint val in
  let mem := store mem off val in
  let mem := store mem (off + 1) (Z.shiftr val 8) in
  let mem := store mem (off + 2) (Z.shiftr val 16) in
  let mem := store mem (off + 3) (Z.shiftr val 24) in
  mem.

(** ** libvpx data the file touches *)

(** [enum vpx_enc_pass] *)
Inductive vpx_enc_pass : Type :=
| VPX_RC_ONE_PASS
| VPX_RC_FIRST_PASS
| VPX_RC_LAST_PASS.

#[global] Instance vpx_enc_pass_eq_dec : EqDecision vpx_enc_pass.
Proof. solve_decision. Defined.

(** [vpx_rational_t]: two [int] fields. *)
Record vpx_rational_t : Type := {
  num : Z;
  den : Z
}.

(** The fields of [vpx_codec_enc_cfg_t] that the file reads or writes. *)
Record vpx_codec_enc_cfg_t : Type := {
  g_w : Z;                   (* unsigned int *)
  g_h : Z;                   (* unsigned int *)
  g_timebase : vpx_rational_t;
  g_pass : vpx_enc_pass;
  rc_target_bitrate : Z      (* unsigned int *)
}.

Definition set_rc_target_bitrate (v : Z) (c : vpx_codec_enc_cfg_t) :=
  {| g_w := g_w c; g_h := g_h c; g_timebase := g_timebase c;
     g_pass := g_pass c; rc_target_bitrate := v |}.
Definition set_g_w (v : Z) (c : vpx_codec_enc_cfg_t) :=
  {| g_w := v; g_h := g_h c; g_timebase := g_timebase c;
     g_pass := g_pass c; rc_target_bitrate := rc_target_bitrate c |}.
Definition set_g_h (v : Z) (c : vpx_codec_enc_cfg_t) :=
  {| g_w := g_w c; g_h := v; g_timebase := g_timebase c;
     g_pass := g_pass c; rc_target_bitrate := rc_target_bitrate c |}.

(** ** The IVF file header *)

Definition fourcc : Z := 0x30385056.
Definition IVF_FILE_HDR_SZ : nat := 32.
Definition IVF_FRAME_HDR_SZ : nat := 12.

Definition char_code (c : ascii) : Z := Z.of_N (N_of_ascii c).

(** The stores of [write_ivf_file_header] into its local [header]. *)
Definition fill_ivf_file_header (header : list Z)
    (cfg : vpx_codec_enc_cfg_t) (frame_cnt : Z) : list Z :=
  let header := store header 0 (char_code "D") in
  let header := store header 1 (char_code "K") in
  let header := store header 2 (char_code "I") in
  let header := store header 3 (char_code "F") in
  let header := mem_put_le16 header 4 0 in
  let header := mem_put_le16 header 6 32 in
  let header := mem_put_le32 header 8 fourcc in
  let header := mem_put_le16 header 12 (g_w cfg) in
  let header := mem_put_le16 header 14 (g_h cfg) in
  let header := mem_put_le32 header 16 (den (g_timebase cfg)) in
  let header := mem_put_le32 header 20 (num (g_timebase cfg)) in
  let header := mem_put_le32 header 24 frame_cnt in
  let header := mem_put_le32 header 28 0 in
  header.

(** [fwrite(buf, 1, n, f)] on an output file held as its bytes so far. *)
Definition fwrite (buf : list Z) (n : nat) (outfile : list Z) : list Z :=
  outfile ++ take n buf.

(** [write_ivf_file_header(outfile, cfg, frame_cnt)]; the result is the
    content of [outfile] after the call.  The local [header] starts with
    indeterminate content, taken as zeros here: the result does not depend
    on it ([fill_ivf_file_header_init]). *)
Definition write_ivf_file_header (outfile : list Z)
    (cfg : vpx_codec_enc_cfg_t) (frame_cnt : Z) : list Z :=
  if decide (g_pass cfg <> VPX_RC_ONE_PASS /\ g_pass cfg <> VPX_RC_LAST_PASS)
  then outfile
  else
    let header := fill_ivf_file_header (replicate 32 0) cfg frame_cnt in
    fwrite header 32 outfile.

(** [enum vpx_codec_cx_pkt_kind] *)
Inductive vpx_codec_cx_pkt_kind : Type :=
| VPX_CODEC_CX_FRAME_PKT
| VPX_CODEC_STATS_PKT
| VPX_CODEC_PSNR_PKT
| VPX_CODEC_CUSTOM_PKT.

#[global] Instance vpx_codec_cx_pkt_kind_eq_dec : EqDecision vpx_codec_cx_pkt_kind.
Proof. solve_decision. Defined.

(** The [data.frame] member of a packet. *)
Record vpx_frame_data : Type := {
  frame_buf : list Z;
  frame_sz : Z;             (* size_t *)
  frame_pts : Z;            (* vpx_codec_pts_t, 64 bits, signed *)
  frame_duration : Z;
  frame_flags : Z           (* vpx_codec_frame_flags_t *)
}.

(** [vpx_codec_cx_pkt_t]: the tag and the [frame] member of the union, which
    the file reads only under the tag [VPX_CODEC_CX_FRAME_PKT]. *)
Record vpx_codec_cx_pkt_t : Type := {
  kind : vpx_codec_cx_pkt_kind;
  data_frame : vpx_frame_data
}.

Definition VPX_FRAME_IS_KEY : Z := 0x1.
Definition VPX_DL_REALTIME : Z := 1.
Definition VPX_IMG_FMT_YV12 : Z := 0x301.
Definition EXIT_SUCCESS : Z := 0.
Definition EXIT_FAILURE : Z := 1.

(** The fields of [vpx_image_t] that the file touches; [w] and [h] are
    [unsigned int], [planes0] is the buffer [planes[0]] points to. *)
Record vpx_image_t : Type := {
  fmt : Z;
  w : Z;
  h : Z;
  planes0 : list Z
}.

(** [write_ivf_frame_header(pkt, header)]: the content of [header] after
    the call. *)
Definition write_ivf_frame_header (pkt : vpx_codec_cx_pkt_t)
    (header : list Z) : list Z :=
  if decide (kind pkt <> VPX_CODEC_CX_FRAME_PKT) then header
  else
    let pts := frame_pts (data_frame pkt) in
    let header := mem_put_le32 header 0 (frame_sz (data_frame pkt)) in
    let header := mem_put_le32 header 4 (Z.land pts 0xFFFFFFFF) in
    let header := mem_put_le32 header 8 (Z.shiftr pts 32) in
    header.

(** ** The codec library *)

(** [vpx_codec_err_t]; zero is [VPX_CODEC_OK]. *)
Abbreviation vpx_codec_err_t := Z (only parsing).

(** The libvpx entry points the file calls.  [vpx_codec_ctx_t] is the
    library's context; [cx_data c] is the list of packets the library holds
    for the last [vpx_codec_encode] call on [c], which
    [vpx_codec_get_cx_data] walks with its iterator. *)
Record Engine : Type := {
  vpx_codec_ctx_t : Type;
  codec_zero : vpx_codec_ctx_t;        (* a zero-initialised context *)
  vpx_codec_iface_name : string;
  vpx_codec_enc_config_default :
    vpx_codec_enc_cfg_t -> Z -> vpx_codec_err_t * vpx_codec_enc_cfg_t;
  vpx_codec_enc_init :
    vpx_codec_ctx_t -> vpx_codec_enc_cfg_t -> Z ->
    vpx_codec_err_t * vpx_codec_ctx_t;
  vpx_codec_encode :
    vpx_codec_ctx_t -> option vpx_image_t -> Z -> Z -> Z -> Z ->
    vpx_codec_err_t * vpx_codec_ctx_t;
  cx_data : vpx_codec_ctx_t -> list vpx_codec_cx_pkt_t;
  vpx_codec_destroy : vpx_codec_ctx_t -> vpx_codec_err_t * vpx_codec_ctx_t;
  vpx_codec_error : vpx_codec_ctx_t -> string;
  vpx_codec_error_detail : vpx_codec_ctx_t -> option string;
  vpx_codec_err_to_string : vpx_codec_err_t -> string
}.

(** [vpx_codec_get_cx_data(ctx, &iter)]: the packet at the iterator, or
    [None] for the null pointer when the list is exhausted, and the advanced
    iterator; the null iterator is [0]. *)
Definition vpx_codec_get_cx_data (E : Engine) (ctx : vpx_codec_ctx_t E)
    (iter : nat) : option vpx_codec_cx_pkt_t * nat :=
  (cx_data E ctx !! iter, S iter).

(** The library calls that change or read the codec, as logged in the
    [world]. *)
Inductive engine_call : Type :=
| Call_enc_config_default (usage : Z)
| Call_enc_init (c : vpx_codec_enc_cfg_t) (fl : Z)
| Call_encode (img : option vpx_image_t) (pts duration fl deadline : Z)
| Call_get_cx_data (iter : nat)
| Call_destroy.

(** ** Standard output *)

Inductive printf_arg : Type :=
| Int_arg (z : Z)
| Str_arg (s : string).

(** One [printf] call: the format and its arguments. *)
Record printf_call : Type := {
  format : string;
  args : list printf_arg
}.

Definition nl : string := String "010"%char EmptyString.

Fixpoint last_char (s : string) : option ascii :=
  match s with
  | EmptyString => None
  | String c EmptyString => Some c
  | String _ rest => last_char rest
  end.

(** ** The session: static variables, outcomes and the functions *)

Declare Scope session_scope.
Delimit Scope session_scope with session.

Section Session.

Context (E : Engine).

(** The static variables of the file, the standard output and the log of
    library calls. *)
Record world : Type := {
  codec : vpx_codec_ctx_t E;
  cfg : vpx_codec_enc_cfg_t;
  frame_cnt : Z;            (* int *)
  res : vpx_codec_err_t;
  frame_avail : Z;          (* int *)
  got_data : Z;             (* int *)
  flags : Z;                (* int *)
  stdout : list printf_call;
  engine_log : list engine_call
}.

Definition with_codec (v : vpx_codec_ctx_t E) (s : world) : world :=
  {| codec := v; cfg := cfg s; frame_cnt := frame_cnt s; res := res s;
     frame_avail := frame_avail s; got_data := got_data s; flags := flags s;
     stdout := stdout s; engine_log := engine_log s |}.
Definition with_cfg (v : vpx_codec_enc_cfg_t) (s : world) : world :=
  {| codec := codec s; cfg := v; frame_cnt := frame_cnt s; res := res s;
     frame_avail := frame_avail s; got_data := got_data s; flags := flags s;
     stdout := stdout s; engine_log := engine_log s |}.
Definition with_frame_cnt (v : Z) (s : world) : world :=
  {| codec := codec s; cfg := cfg s; frame_cnt := v; res := res s;
     frame_avail := frame_avail s; got_data := got_data s; flags := flags s;
     stdout := stdout s; engine_log := engine_log s |}.
Definition with_res (v : vpx_codec_err_t) (s : world) : world :=
  {| codec := codec s; cfg := cfg s; frame_cnt := frame_cnt s; res := v;
     frame_avail := frame_avail s; got_data := got_data s; flags := flags s;
     stdout := stdout s; engine_log := engine_log s |}.
Definition with_frame_avail (v : Z) (s : world) : world :=
  {| codec := codec s; cfg := cfg s; frame_cnt := frame_cnt s; res := res s;
     frame_avail := v; got_data := got_data s; flags := flags s;
     stdout := stdout s; engine_log := engine_log s |}.
Definition with_got_data (v : Z) (s : world) : world :=
  {| codec := codec s; cfg := cfg s; frame_cnt := frame_cnt s; res := res s;
     frame_avail := frame_avail s; got_data := v; flags := flags s;
     stdout := stdout s; engine_log := engine_log s |}.
Definition with_stdout (v : list printf_call) (s : world) : world :=
  {| codec := codec s; cfg := cfg s; frame_cnt := frame_cnt s; res := res s;
     frame_avail := frame_avail s; got_data := got_data s; flags := flags s;
     stdout := v; engine_log := engine_log s |}.
Definition with_engine_log (v : list engine_call) (s : world) : world :=
  {| codec := codec s; cfg := cfg s; frame_cnt := frame_cnt s; res := res s;
     frame_avail := frame_avail s; got_data := got_data s; flags := flags s;
     stdout := stdout s; engine_log := v |}.

(** The statics as the program starts: zero-initialised, with the two
    explicit initialisers [frame_cnt = 0] and [flags = 0]. *)
Definition initial_world (cfg0 : vpx_codec_enc_cfg_t) : world :=
  {| codec := codec_zero E; cfg := cfg0; frame_cnt := 0; res := 0;
     frame_avail := 0; got_data := 0; flags := 0;
     stdout := []; engine_log := [] |}.

(** How a call ends: it returns, the process exits ([exit(status)]), or the
    behaviour is undefined (a null pointer is dereferenced, a division by
    zero, a read before the start of a string). *)
Inductive outcome (A : Type) : Type :=
| Returned (v : A) (s : world)
| Exited (status : Z) (s : world)
| Undefined (s : world).
Arguments Returned {A} v s.
Arguments Exited {A} status s.
Arguments Undefined {A} s.

Definition M (A : Type) : Type := world -> outcome A.

Definition ret {A} (v : A) : M A := fun s => Returned v s.

Definition bind {A B} (m : M A) (k : A -> M B) : M B :=
  fun s =>
    match m s with
    | Returned v s' => k v s'
    | Exited status s' => Exited status s'
    | Undefined s' => Undefined s'
    end.

Definition get : M world := fun s => Returned s s.
Definition modify (f : world -> world) : M unit := fun s => Returned tt (f s).
Definition exit {A} (status : Z) : M A := fun s => Exited status s.
Definition undefined {A} : M A := fun s => Undefined s.

Notation "x <- m ;; k" := (bind m (fun x => k))
  (at level 100, m at next level, right associativity) : session_scope.
Notation "m ;; k" := (bind m (fun _ => k))
  (at level 100, right associativity) : session_scope.
Local Open Scope session_scope.

Definition printf (f : string) (a : list printf_arg) : M unit :=
  modify (fun s => with_stdout (stdout s ++ [{| format := f; args := a |}]) s).

Definition log (c : engine_call) : M unit :=
  modify (fun s => with_engine_log (engine_log s ++ [c]) s).

(** [die(fmt, ...)] *)
Definition die {A} (f : string) (a : list printf_arg) : M A :=
  printf f a ;;
  match last_char f with
  | None => undefined
  | Some c =>
      (if negb (Ascii.eqb c "010"%char) then printf nl [] else ret tt) ;;
      exit EXIT_FAILURE
  end.

(** [die_codec(&codec, s)]: every call passes the static [codec]. *)
Definition die_codec {A} (msg : string) : M A :=
  s <- get ;;
  let detail := vpx_codec_error_detail E (codec s) in
  printf ("%s: %s" ++ nl)
    [Str_arg msg; Str_arg (vpx_codec_error E (codec s))] ;;
  (match detail with
   | Some d => printf ("    %s" ++ nl) [Str_arg d]
   | None => ret tt
   end) ;;
  exit EXIT_FAILURE.

(** [fread(ptr, 1, to_read, f)] on an input held as the bytes still to be
    read: the bytes delivered, as many as asked for unless the input ends
    first, and the rest of the input. *)
Definition fread (to_read : Z) (f : list Z) : list Z * list Z :=
  (take (Z.to_nat to_read) f, drop (Z.to_nat to_read) f).

Definition partial_frame_warning : string :=
  ("Warning: Read partial frame. Check your width & height!" ++ nl)%string.

(** [read_frame(f, img)]: the returned [int], the input after the call and
    the image after the call; the bytes read replace the front of the
    buffer [planes[0]]. *)
Definition read_frame (f : list Z) (img : vpx_image_t)
  : M (Z * list Z * vpx_image_t) :=
  let res := 1 in
  let to_read := to_size_t (Z.quot (to_uint (to_uint (w img * h img) * 3)) 2) in
  let '(data, f) := fread to_read f in
  let nbytes := Z.of_nat (length data) in
  let img := {| fmt := VPX_IMG_FMT_YV12; w := w img; h := h img;
                planes0 := data ++ drop (length data) (planes0 img) |} in
  if decide (nbytes <> to_read) then
    let res := 0 in
    (if decide (nbytes > 0) then printf partial_frame_warning [] else ret tt) ;;
    ret (res, f, img)
  else ret (res, f, img).

(** [setup_encoder(width, height)] *)
Definition setup_encoder (width height : Z) : M Z :=
  (if (width <? 16) || negb (Z.rem width 2 =? 0)
      || (height <? 16) || negb (Z.rem height 2 =? 0)
   then die "Invalid resolution: %ldx%ld" [Int_arg width; Int_arg height]
   else ret tt) ;;
  printf ("Using %s" ++ nl) [Str_arg (vpx_codec_iface_name E)] ;;
  s <- get ;;
  let '(r, c) := vpx_codec_enc_config_default E (cfg s) 0 in
  modify (fun s => with_res r (with_cfg c s)) ;;
  log (Call_enc_config_default 0) ;;
  if decide (r <> 0) then
    printf ("Failed to get config: %s" ++ nl)
      [Str_arg (vpx_codec_err_to_string E r)] ;;
    ret EXIT_FAILURE
  else
    if decide (g_w c = 0 \/ g_h c = 0) then undefined
    else
      let bitrate :=
        Z.quot
          (Z.quot (to_long (to_long (width * height) * rc_target_bitrate c))
                  (g_w c))
          (g_h c) in
      modify (fun s => with_cfg (set_rc_target_bitrate (to_uint bitrate) (cfg s)) s) ;;
      modify (fun s => with_cfg (set_g_w (to_uint width) (cfg s)) s) ;;
      modify (fun s => with_cfg (set_g_h (to_uint height) (cfg s)) s) ;;
      s <- get ;;
      let '(r, ctx) := vpx_codec_enc_init E (codec s) (cfg s) 0 in
      modify (with_codec ctx) ;;
      log (Call_enc_init (cfg s) 0) ;;
      (if decide (r <> 0) then die_codec "Failed to initialize encoder"
       else ret tt) ;;
      modify (with_frame_avail 1) ;;
      modify (with_got_data 0) ;;
      ret EXIT_SUCCESS.

Definition unknown_packet_warning : string :=
  "WARNING - Got a different kind of packet, don't know how to handle"%string.

(** [encode_frame(raw)]: the returned pointer is never null when the call
    returns, so the result is the packet it points to. *)
Definition encode_frame (raw : vpx_image_t) : M vpx_codec_cx_pkt_t :=
  let iter := 0%nat in
  modify (with_frame_avail 1) ;;
  s <- get ;;
  let img := if decide (frame_avail s <> 0) then Some raw else None in
  let '(r, ctx) :=
    vpx_codec_encode E (codec s) img (frame_cnt s) 1 (flags s)
      VPX_DL_REALTIME in
  modify (with_codec ctx) ;;
  log (Call_encode img (frame_cnt s) 1 (flags s) VPX_DL_REALTIME) ;;
  (if decide (r <> 0) then die_codec "Failed to encode frame" else ret tt) ;;
  modify (with_got_data 0) ;;
  s <- get ;;
  let '(pkt, _) := vpx_codec_get_cx_data E (codec s) iter in
  log (Call_get_cx_data iter) ;;
  modify (with_got_data 1) ;;
  match pkt with
  | None => undefined
  | Some pkt =>
      (match kind pkt with
       | VPX_CODEC_CX_FRAME_PKT => ret tt
       | _ => printf unknown_packet_warning []
       end) ;;
      printf
        (if bool_decide (kind pkt = VPX_CODEC_CX_FRAME_PKT)
            && negb (Z.land (frame_flags (data_frame pkt)) VPX_FRAME_IS_KEY =? 0)
         then "K" else ".") [] ;;
      modify (fun s => with_frame_cnt (to_int (frame_cnt s + 1)) s) ;;
      ret pkt
  end.

(** [finalise_encoder()] *)
Definition finalise_encoder : M Z :=
  s <- get ;;
  printf ("Processed %d frames." ++ nl) [Int_arg (to_int (frame_cnt s - 1))] ;;
  let '(r, ctx) := vpx_codec_destroy E (codec s) in
  modify (with_codec ctx) ;;
  log Call_destroy ;;
  (if decide (r <> 0) then die_codec "Failed to destroy codec" else ret tt) ;;
  ret EXIT_SUCCESS.

End Session.

Arguments Returned {E A} v s.
Arguments Exited {E A} status s.
Arguments Undefined {E A} s.
Arguments ret {E A} v _.
Arguments bind {E A B} m k _.
Arguments codec {E} _.
Arguments cfg {E} _.
Arguments frame_cnt {E} _.
Arguments res {E} _.
Arguments frame_avail {E} _.
Arguments got_data {E} _.
Arguments flags {E} _.
Arguments stdout {E} _.
Arguments engine_log {E} _.
Arguments with_stdout {E} v s.
Arguments with_codec {E} v s.
Arguments with_cfg {E} v s.
Arguments with_frame_cnt {E} v s.
Arguments with_engine_log {E} v s.

Notation "x <- m ;; k" := (bind m (fun x => k))
  (at level 100, m at next level, right associativity) : session_scope.
Notation "m ;; k" := (bind m (fun _ => k))
  (at level 100, right associativity) : session_scope.

(** The world in which a call ends. *)
Definition outcome_world {E A} (o : outcome E A) : world E :=
  match o with
  | Returned _ s => s
  | Exited _ s => s
  | Undefined s => s
  end.

(** Consecutive [encode_frame] calls, one per raw frame, as a caller makes
    them; the packets returned by the calls are collected in order. *)
Fixpoint encode_frames (E : Engine) (raws : list vpx_image_t)
  : M E (list vpx_codec_cx_pkt_t) :=
  match raws with
  | [] => ret []
  | raw :: rest =>
      (pkt <- encode_frame E raw ;;
       pkts <- encode_frames E rest ;;
       ret (pkt :: pkts))%session
  end.

(** ** A small codec to run the session on

    It emits, for the frame submitted with time stamp [pts], the packets
    [emit pts]; like libvpx it reports an error for [vpx_codec_encode] and
    [vpx_codec_destroy] on a context that is not initialised. *)
Module Toy.

Record ctx : Type := {
  live : bool;
  pending : list vpx_codec_cx_pkt_t
}.

Definition default_cfg : vpx_codec_enc_cfg_t :=
  {| g_w := 320; g_h := 240; g_timebase := {| num := 1; den := 30 |};
     g_pass := VPX_RC_ONE_PASS; rc_target_bitrate := 256 |}.

Definition engine (emit : Z -> list vpx_codec_cx_pkt_t) : Engine :=
  {| vpx_codec_ctx_t := ctx;
     codec_zero := {| live := false; pending := [] |};
     vpx_codec_iface_name := "toy";
     vpx_codec_enc_config_default := fun _ _ => (0, default_cfg);
     vpx_codec_enc_init := fun _ _ _ => (0, {| live := true; pending := [] |});
     vpx_codec_encode := fun c _ pts _ _ _ =>
       if live c then (0, {| live := true; pending := emit pts |})
       else (1, c);
     cx_data := pending;
     vpx_codec_destroy := fun c =>
       if live c then (0, {| live := false; pending := [] |}) else (1, c);
     vpx_codec_error := fun _ => "Unspecified internal error"%string;
     vpx_codec_error_detail := fun _ => None;
     vpx_codec_err_to_string := fun _ => "Unspecified internal error"%string |}.

Definition frame_packet (pts fl : Z) : vpx_codec_cx_pkt_t :=
  {| kind := VPX_CODEC_CX_FRAME_PKT;
     data_frame := {| frame_buf := [0; 1; 2]; frame_sz := 3; frame_pts := pts;
                      frame_duration := 1; frame_flags := fl |} |}.

Definition stats_packet : vpx_codec_cx_pkt_t :=
  {| kind := VPX_CODEC_STATS_PKT;
     data_frame := {| frame_buf := []; frame_sz := 0; frame_pts := 0;
                      frame_duration := 0; frame_flags := 0 |} |}.

(** One frame packet per call, a key frame first. *)
Definition one_packet : Engine :=
  engine (fun pts => [frame_packet pts (if pts =? 0 then 1 else 0)]).

(** Two packets per call. *)
Definition two_packets : Engine :=
  engine (fun pts => [frame_packet pts 0; stats_packet]).

(** No packet for the first frame, one per call afterwards. *)
Definition lagging : Engine :=
  engine (fun pts => if pts =? 0 then [] else [frame_packet pts 0]).

Definition zero_cfg : vpx_codec_enc_cfg_t :=
  {| g_w := 0; g_h := 0; g_timebase := {| num := 0; den := 0 |};
     g_pass := VPX_RC_ONE_PASS; rc_target_bitrate := 0 |}.

Definition image (width height : Z) : vpx_image_t :=
  {| fmt := 0; w := width; h := height;
     planes0 := replicate (Z.to_nat (width * height * 3 / 2)) 0 |}.

(** A codec that accepts every frame, whatever the context, and holds one
    frame packet for every call. *)
Definition steady : Engine :=
  {| vpx_codec_ctx_t := ctx;
     codec_zero := {| live := false; pending := [] |};
     vpx_codec_iface_name := "steady";
     vpx_codec_enc_config_default := fun _ _ => (0, default_cfg);
     vpx_codec_enc_init := fun _ _ _ => (0, {| live := true; pending := [] |});
     vpx_codec_encode := fun c _ pts _ _ _ =>
       (0, {| live := true; pending := [frame_packet pts 0] |});
     cx_data := pending;
     vpx_codec_destroy := fun c => (0, {| live := false; pending := [] |});
     vpx_codec_error := fun _ => "Unspecified internal error"%string;
     vpx_codec_error_detail := fun _ => None;
     vpx_codec_err_to_string := fun _ => "Unspecified internal error"%string |}.

(** The world after [setup_encoder(64, 64)] on a fresh process. *)
Definition ready (E : Engine) : world E :=
  outcome_world (setup_encoder E 64 64 (initial_world E zero_cfg)).

End Toy.

(** ** Reading the IVF file header back

    The reader follows the layout table of the specification (section 6):
    little-endian fields at fixed offsets of a 32-byte header. *)

Fixpoint le_combine (bytes : list Z) : Z :=
  match bytes with
  | [] => 0
  | b :: rest => b + 256 * le_combine rest
  end.

Definition le_read (bytes : list Z) (off n : nat) : Z :=
  le_combine (take n (drop off bytes)).

Record ivf_file_header : Type := {
  ivf_magic : list Z;
  ivf_version : Z;
  ivf_header_size : Z;
  ivf_fourcc : Z;
  ivf_width : Z;
  ivf_height : Z;
  ivf_rate : Z;
  ivf_scale : Z;
  ivf_frame_count : Z;
  ivf_reserved : Z
}.

Definition spec_parse_ivf_file_header (bytes : list Z)
  : option ivf_file_header :=
  if (length bytes <? 32)%nat then None
  else Some {| ivf_magic := take 4 bytes;
               ivf_version := le_read bytes 4 2;
               ivf_header_size := le_read bytes 6 2;
               ivf_fourcc := le_read bytes 8 4;
               ivf_width := le_read bytes 12 2;
               ivf_height := le_read bytes 14 2;
               ivf_rate := le_read bytes 16 4;
               ivf_scale := le_read bytes 20 4;
               ivf_frame_count := le_read bytes 24 4;
               ivf_reserved := le_read bytes 28 4 |}.


(** ** Notions of the specification used in the statements *)

(** A resolution as the specification wants it: both dimensions even and at
    least 16. *)
Definition valid_resolution (width height : Z) : Prop :=
  16 <= width /\ Z.even width = true /\ 16 <= height /\ Z.even height = true.

(** The world in which [setup_encoder] leaves the process when it rejects a
    resolution: only the standard output has grown, by the message of [die]
    and the line end [die] adds. *)
Definition invalid_resolution_exit {E} (width height : Z) (s : world E)
  : world E :=
  with_stdout
    (stdout s ++
       [ {| format := "Invalid resolution: %ldx%ld";
            args := [Int_arg width; Int_arg height] |};
         {| format := nl; args := [] |} ]) s.

(** The three results of [readFrame] in the specification, for [required]
    bytes asked and [nread] bytes read. *)
Inductive read_result : Type := Full | Partial | Empty.

Inductive spec_readFrame (required nread : Z) : read_result -> Prop :=
| spec_read_Full : nread = required -> spec_readFrame required nread Full
| spec_read_Partial :
    1 <= nread <= required - 1 -> spec_readFrame required nread Partial
| spec_read_Empty : nread = 0 -> spec_readFrame required nread Empty.

(** How [read_frame] tells the three results apart: it returns 1 for a full
    frame and 0 otherwise, and a partial frame differs from an empty one by
    the warning on the standard output. *)
Inductive read_frame_reports {E} (s : world E)
  : Z -> world E -> read_result -> Prop :=
| reports_Full : read_frame_reports s 1 s Full
| reports_Partial :
    read_frame_reports s 0
      (with_stdout
         (stdout s ++ [{| format := partial_frame_warning; args := [] |}]) s)
      Partial
| reports_Empty : read_frame_reports s 0 s Empty.

(** The statement of the specification about [read_frame] at one input:
    the call asks for [w * h * 3 / 2] bytes, takes the bytes the input can
    give from its front into the buffer, and reports the result the
    specification names. *)
Definition read_frame_as_specified (E : Engine) (f : list Z)
    (img : vpx_image_t) (s : world E) : Prop :=
  let required := w img * h img * 3 / 2 in
  let nread := Z.min required (Z.of_nat (length f)) in
  exists r img' s',
    read_frame E f img s = Returned (r, drop (Z.to_nat nread) f, img') s'
    /\ planes0 img'
       = take (Z.to_nat nread) f ++ drop (Z.to_nat nread) (planes0 img)
    /\ fmt img' = VPX_IMG_FMT_YV12
    /\ forall result, spec_readFrame required nread result ->
                      read_frame_reports s r s' result.

(** The library call [encode_frame] makes in world [s]: the frame is always
    passed, since [frame_avail] has just been set to 1, with the frame
    counter as its time stamp and the real-time deadline. *)
Definition engine_encode (E : Engine) (raw : vpx_image_t) (s : world E)
  : vpx_codec_err_t * vpx_codec_ctx_t E :=
  vpx_codec_encode E (codec s) (Some raw) (frame_cnt s) 1 (flags s)
    VPX_DL_REALTIME.

Definition encode_call {E} (raw : vpx_image_t) (s : world E) : engine_call :=
  Call_encode (Some raw) (frame_cnt s) 1 (flags s) VPX_DL_REALTIME.

(** The packets a call hands back to its caller: [encode_frame] returns one
    pointer, so one packet when it returns. *)
Definition returned_packets {E} (o : outcome E vpx_codec_cx_pkt_t)
  : option (list vpx_codec_cx_pkt_t) :=
  match o with
  | Returned pkt _ => Some [pkt]
  | _ => None
  end.

(** The statement of the specification about draining, at one call: when
    the library accepts the frame, the call returns all the packets the
    library holds for it, none, one or several. *)
Definition encode_frame_drains (E : Engine) (raw : vpx_image_t)
    (s : world E) : Prop :=
  forall ctx, engine_encode E raw s = (0, ctx) ->
              returned_packets (encode_frame E raw s) = Some (cx_data E ctx).

(** The statement of the specification about the frame counter, at one run
    of consecutive calls: when the calls have all returned, the counter has
    grown by their number. *)
Definition counts_calls (E : Engine) (raws : list vpx_image_t) (s : world E)
  : Prop :=
  forall pkts s',
    encode_frames E raws s = Returned pkts s' ->
    frame_cnt s' = frame_cnt s + Z.of_nat (length raws).

(** A library that accepts every frame and holds at least one packet for
    every call. *)
Definition always_emits (E : Engine) : Prop :=
  forall ctx img pts duration fl deadline,
  exists ctx' pkt rest,
    vpx_codec_encode E ctx img pts duration fl deadline = (0, ctx')
    /\ cx_data E ctx' = pkt :: rest.

(** The line [finalise_encoder] prints for the count [n]. *)
Definition processed_line (n : Z) : printf_call :=
  {| format := ("Processed %d frames." ++ nl)%string; args := [Int_arg n] |}.

(** A whole session as a caller drives it: set up, encode the frames one
    by one, finalise. *)
Definition session_run (E : Engine) (width height : Z)
    (raws : list vpx_image_t) : M E Z :=
  (setup_encoder E width height ;;
   encode_frames E raws ;;
   finalise_encoder E)%session.

(** A call without effect that does not return: it ends in the world it
    started in. *)
Definition inert {E A} (m : M E A) (s : world E) : Prop :=
  outcome_world (m s) = s /\ forall v s', m s <> Returned v s'.

(** The statement of the specification about a finalised session, at the
    world [s] a completed [finalise_encoder] has left: both operations
    fail without effect. *)
Definition finalised_session_is_inert (E : Engine) (raw : vpx_image_t)
    (s : world E) : Prop :=
  inert (finalise_encoder E) s /\ inert (encode_frame E raw) s.

(** The statement of the specification about the target bit rate, at one
    call of [setup_encoder]: with the defaults [c] the library gives, the
    configuration the call leaves has the default bit rate scaled by the
    pixel counts, in exact integer arithmetic. *)
Definition bitrate_as_specified (E : Engine) (width height : Z)
    (s : world E) : Prop :=
  forall c,
    vpx_codec_enc_config_default E (cfg s) 0 = (0, c) ->
    rc_target_bitrate (cfg (outcome_world (setup_encoder E width height s)))
    = width * height * rc_target_bitrate c / (g_w c * g_h c).

(** The configuration [setup_encoder] builds from the defaults [c] the
    library gives: the bit rate scaled, then the width and the height
    replaced, every other field as the library gave it. *)
Definition session_cfg (width height : Z) (c : vpx_codec_enc_cfg_t)
  : vpx_codec_enc_cfg_t :=
  set_g_h (to_uint height)
    (set_g_w (to_uint width)
       (set_rc_target_bitrate
          (to_uint
             (Z.quot
                (Z.quot
                   (to_long (to_long (width * height) * rc_target_bitrate c))
                   (g_w c))
                (g_h c)))
          c)).

(** The lines of [die_codec] for the message [msg] on the context [ctx]. *)
Definition die_codec_lines (E : Engine) (msg : string)
    (ctx : vpx_codec_ctx_t E) : list printf_call :=
  {| format := ("%s: %s" ++ nl)%string;
     args := [Str_arg msg; Str_arg (vpx_codec_error E ctx)] |}
  :: match vpx_codec_error_detail E ctx with
     | Some d => [{| format := ("    %s" ++ nl)%string; args := [Str_arg d] |}]
     | None => []
     end.

(** The line [setup_encoder] prints first. *)
Definition using_line (E : Engine) : printf_call :=
  {| format := ("Using %s" ++ nl)%string;
     args := [Str_arg (vpx_codec_iface_name E)] |}.

(** ** A codec that fails on demand

    Each entry point reports the error code it is given (0 for none); the
    defaults and the detail string are parameters. *)
Module ToyFaults.

Definition engine (cfg_err init_err encode_err destroy_err : Z)
    (defaults : vpx_codec_enc_cfg_t) (detail : option string) : Engine :=
  {| vpx_codec_ctx_t := Toy.ctx;
     codec_zero := {| Toy.live := false; Toy.pending := [] |};
     vpx_codec_iface_name := "faulty";
     vpx_codec_enc_config_default := fun c _ =>
       if cfg_err =? 0 then (0, defaults) else (cfg_err, c);
     vpx_codec_enc_init := fun c _ _ =>
       if init_err =? 0 then (0, {| Toy.live := true; Toy.pending := [] |})
       else (init_err, c);
     vpx_codec_encode := fun c _ pts _ _ _ =>
       if encode_err =? 0
       then (0, {| Toy.live := true;
                   Toy.pending := [Toy.frame_packet pts 0] |})
       else (encode_err, c);
     cx_data := Toy.pending;
     vpx_codec_destroy := fun c =>
       (destroy_err, {| Toy.live := false; Toy.pending := [] |});
     vpx_codec_error := fun _ => "Invalid parameter"%string;
     vpx_codec_error_detail := fun _ => detail;
     vpx_codec_err_to_string := fun _ => "Invalid parameter"%string |}.

Definition no_config : Engine :=
  engine 8 0 0 0 Toy.default_cfg None.

Definition no_init : Engine :=
  engine 0 8 0 0 Toy.default_cfg (Some "g_w out of range"%string).

Definition no_encode : Engine :=
  engine 0 0 1 0 Toy.default_cfg None.

Definition zero_defaults : Engine :=
  engine 0 0 0 0 Toy.zero_cfg None.

End ToyFaults.

(** The library calls of a run of [encode_frame] calls that all return,
    starting at time stamp [pts] with the flags [fl]: one submission and
    one packet request per frame, the time stamps growing by one. *)
Fixpoint expected_calls (raws : list vpx_image_t) (pts fl : Z)
  : list engine_call :=
  match raws with
  | [] => []
  | raw :: rest =>
      Call_encode (Some raw) pts 1 fl VPX_DL_REALTIME
      :: Call_get_cx_data 0
      :: expected_calls rest (pts + 1) fl
  end.

Definition mark (m : string) : printf_call := {| format := m; args := [] |}.

(** The number of bytes [read_frame] asks for, as the code computes it:
    the product in [unsigned int] arithmetic, halved. *)
Definition frame_bytes (img : vpx_image_t) : Z :=
  to_size_t (Z.quot (to_uint (to_uint (w img * h img) * 3)) 2).

(** * Properties *)

(** ** C integer conversions *)

Module CIntFacts.

Lemma to_uint_small z : 0 <= z <= UINT_MAX -> to_uint z = z.
Proof.
  unfold to_uint, wrap_unsigned, UINT_MAX. intros H.
  apply Z.mod_small. lia.
Qed.

Lemma to_int_small z : - 2 ^ 31 <= z <= INT_MAX -> to_int z = z.
Proof.
  unfold to_int, wrap_signed, INT_MAX. intros H.
  change (2 ^ (32 - 1)) with 2147483648 in *.
  change (2 ^ 31) with 2147483648 in *.
  change (2 ^ 32) with 4294967296.
  rewrite Z.mod_small; lia.
Qed.

Lemma to_long_small z : - 2 ^ 63 <= z <= LONG_MAX -> to_long z = z.
Proof.
  unfold to_long, wrap_signed, LONG_MAX. intros H.
  change (2 ^ (64 - 1)) with 9223372036854775808 in *.
  change (2 ^ 63) with 9223372036854775808 in *.
  change (2 ^ 64) with 18446744073709551616.
  rewrite Z.mod_small; lia.
Qed.

Lemma to_byte_range z : 0 <= to_byte z < 256.
Proof. unfold to_byte, wrap_unsigned. apply Z.mod_pos_bound. lia. Qed.

Lemma to_int_range z : - 2 ^ 31 <= to_int z <= INT_MAX.
Proof.
  unfold to_int, wrap_signed, INT_MAX.
  change (2 ^ (32 - 1)) with 2147483648.
  change (2 ^ 31) with 2147483648.
  change (2 ^ 32) with 4294967296.
  pose proof (Z.mod_pos_bound (z + 2147483648) 4294967296). lia.
Qed.

End CIntFacts.
Import CIntFacts.

Example setup_64x64 :
  exists s, setup_encoder Toy.one_packet 64 64 (initial_world _ Toy.zero_cfg)
            = Returned EXIT_SUCCESS s
            /\ rc_target_bitrate (cfg s) = 13 /\ frame_cnt s = 0.
Proof. eexists. split; [vm_compute; reflexivity | split; reflexivity]. Qed.

(** ** Properties of the IVF file header *)

Lemma fill_ivf_file_header_bytes (header : list Z)
    (c : vpx_codec_enc_cfg_t) (n : Z) :
  length header = 32%nat ->
  fill_ivf_file_header header c n =
    [ to_byte (char_code "D"); to_byte (char_code "K");
      to_byte (char_code "I"); to_byte (char_code "F");
      to_byte (to_uint 0); to_byte (Z.shiftr (to_uint 0) 8);
      to_byte (to_uint 32); to_byte (Z.shiftr (to_uint 32) 8);
      to_byte (to_uint fourcc); to_byte (Z.shiftr (to_uint fourcc) 8);
      to_byte (Z.shiftr (to_uint fourcc) 16);
      to_byte (Z.shiftr (to_uint fourcc) 24);
      to_byte (to_uint (g_w c)); to_byte (Z.shiftr (to_uint (g_w c)) 8);
      to_byte (to_uint (g_h c)); to_byte (Z.shiftr (to_uint (g_h c)) 8);
      to_byte (to_uint (den (g_timebase c)));
      to_byte (Z.shiftr (to_uint (den (g_timebase c))) 8);
      to_byte (Z.shiftr (to_uint (den (g_timebase c))) 16);
      to_byte (Z.shiftr (to_uint (den (g_timebase c))) 24);
      to_byte (to_uint (num (g_timebase c)));
      to_byte (Z.shiftr (to_uint (num (g_timebase c))) 8);
      to_byte (Z.shiftr (to_uint (num (g_timebase c))) 16);
      to_byte (Z.shiftr (to_uint (num (g_timebase c))) 24);
      to_byte (to_uint n); to_byte (Z.shiftr (to_uint n) 8);
      to_byte (Z.shiftr (to_uint n) 16); to_byte (Z.shiftr (to_uint n) 24);
      to_byte (to_uint 0); to_byte (Z.shiftr (to_uint 0) 8);
      to_byte (Z.shiftr (to_uint 0) 16); to_byte (Z.shiftr (to_uint 0) 24) ].
Proof.
  intros Hlen.
  do 33 (destruct header as [|? header]; try discriminate Hlen).
  reflexivity.
Qed.

Lemma fill_ivf_file_header_init (header : list Z)
    (c : vpx_codec_enc_cfg_t) (n : Z) :
  length header = 32%nat ->
  fill_ivf_file_header header c n = fill_ivf_file_header (replicate 32 0) c n.
Proof.
  intros Hlen.
  rewrite (fill_ivf_file_header_bytes header c n Hlen).
  symmetry. apply fill_ivf_file_header_bytes. reflexivity.
Qed.

Lemma fill_ivf_file_header_length (header : list Z)
    (c : vpx_codec_enc_cfg_t) (n : Z) :
  length (fill_ivf_file_header header c n) = length header.
Proof.
  unfold fill_ivf_file_header, mem_put_le32, mem_put_le16, store.
  repeat rewrite length_insert. reflexivity.
Qed.

Lemma le16_bytes (v : Z) :
  to_byte v + 256 * (to_byte (Z.shiftr v 8) + 256 * 0) = v mod 2 ^ 16.
Proof.
  unfold to_byte, wrap_unsigned.
  rewrite Z.shiftr_div_pow2 by lia.
  change (2 ^ 8) with 256. change (2 ^ 16) with 65536.
  Z.div_mod_to_equations. lia.
Qed.

Lemma le32_bytes (v : Z) :
  to_byte v + 256 * (to_byte (Z.shiftr v 8) + 256 *
    (to_byte (Z.shiftr v 16) + 256 * (to_byte (Z.shiftr v 24) + 256 * 0)))
  = v mod 2 ^ 32.
Proof.
  unfold to_byte, wrap_unsigned.
  rewrite !Z.shiftr_div_pow2 by lia.
  change (2 ^ 8) with 256. change (2 ^ 16) with 65536.
  change (2 ^ 24) with 16777216. change (2 ^ 32) with 4294967296.
  Z.div_mod_to_equations. lia.
Qed.

(** What a reader gets back from a written header, for every
    configuration: each field modulo the width of its slot. *)
Lemma ivf_file_header_read_back (outfile : list Z)
    (c : vpx_codec_enc_cfg_t) (n : Z) :
  g_pass c = VPX_RC_ONE_PASS \/ g_pass c = VPX_RC_LAST_PASS ->
  spec_parse_ivf_file_header
    (drop (length outfile) (write_ivf_file_header outfile c n))
  = Some {| ivf_magic := [68; 75; 73; 70];
            ivf_version := 0;
            ivf_header_size := 32;
            ivf_fourcc := fourcc;
            ivf_width := to_uint (g_w c) mod 2 ^ 16;
            ivf_height := to_uint (g_h c) mod 2 ^ 16;
            ivf_rate := to_uint (den (g_timebase c));
            ivf_scale := to_uint (num (g_timebase c));
            ivf_frame_count := to_uint n;
            ivf_reserved := 0 |}.
Proof.
  intros Hpass. unfold write_ivf_file_header.
  destruct (decide _) as [[H1 H2]|_]; [destruct Hpass; contradiction|].
  unfold fwrite. rewrite drop_app_length.
  rewrite fill_ivf_file_header_bytes by reflexivity.
  unfold spec_parse_ivf_file_header.
  change (length _ <? 32)%nat with false. cbv iota.
  unfold le_read.
  cbn [take drop firstn skipn le_combine].
  rewrite !le32_bytes, !le16_bytes.
  f_equal. f_equal.
  all: try reflexivity.
  all: unfold to_uint, wrap_unsigned; rewrite Z.mod_mod by lia; reflexivity.
Qed.

(** C10: [write_ivf_file_header] leaves the output file as it is when the
    pass mode of the configuration is neither one-pass nor two-pass-last,
    and appends exactly the 32 header bytes in those two modes. *)
Theorem write_ivf_file_header_pass_gate (outfile : list Z)
    (c : vpx_codec_enc_cfg_t) (n : Z) :
  (g_pass c <> VPX_RC_ONE_PASS /\ g_pass c <> VPX_RC_LAST_PASS ->
   write_ivf_file_header outfile c n = outfile)
  /\ (g_pass c = VPX_RC_ONE_PASS \/ g_pass c = VPX_RC_LAST_PASS ->
      exists header,
        length header = 32%nat
        /\ write_ivf_file_header outfile c n = outfile ++ header)
  /\ (write_ivf_file_header outfile c n <> outfile ->
      g_pass c = VPX_RC_ONE_PASS \/ g_pass c = VPX_RC_LAST_PASS).
Proof.
  unfold write_ivf_file_header, fwrite.
  destruct (decide _) as [Hskip | Hwrite].
  - split; [reflexivity|]. split.
    + intros [H | H]; destruct Hskip; contradiction.
    + intros Hne. contradiction.
  - assert (Hpass : g_pass c = VPX_RC_ONE_PASS \/ g_pass c = VPX_RC_LAST_PASS).
    { destruct (g_pass c); [left | exfalso | right]; try reflexivity.
      apply Hwrite. split; discriminate. }
    split; [intros Hskip; contradiction|]. split; [|intros _; exact Hpass].
    intros _. eexists. split; [|reflexivity].
    rewrite length_take, fill_ivf_file_header_length, length_replicate.
    reflexivity.
Qed.

Lemma write_ivf_file_header_pass_gate_witness :
  write_ivf_file_header [1; 2; 3]
    {| g_w := 64; g_h := 64; g_timebase := {| num := 1; den := 30 |};
       g_pass := VPX_RC_FIRST_PASS; rc_target_bitrate := 13 |} 10
  = [1; 2; 3].
Proof.
  apply (write_ivf_file_header_pass_gate [1; 2; 3]
           {| g_w := 64; g_h := 64; g_timebase := {| num := 1; den := 30 |};
              g_pass := VPX_RC_FIRST_PASS; rc_target_bitrate := 13 |} 10).
  split; discriminate.
Defined.

(** C7: the header written for width 64, height 64, time base 1/30 (rate
    30, scale 1) and 10 frames, read back by the little-endian layout of
    the specification, gives width 64, height 64, rate 30, scale 1 and
    frame count 10 again. *)
Theorem ivf_file_header_round_trip_64x64 (c : vpx_codec_enc_cfg_t) :
  g_w c = 64 -> g_h c = 64 ->
  den (g_timebase c) = 30 -> num (g_timebase c) = 1 ->
  g_pass c = VPX_RC_ONE_PASS \/ g_pass c = VPX_RC_LAST_PASS ->
  exists hdr,
    spec_parse_ivf_file_header (write_ivf_file_header [] c 10) = Some hdr
    /\ ivf_width hdr = 64 /\ ivf_height hdr = 64
    /\ ivf_rate hdr = 30 /\ ivf_scale hdr = 1
    /\ ivf_frame_count hdr = 10.
Proof.
  intros Hw Hh Hden Hnum Hpass.
  pose proof (ivf_file_header_read_back [] c 10 Hpass) as Hread.
  rewrite drop_0 in Hread.
  rewrite Hw, Hh, Hden, Hnum in Hread.
  eexists. split; [exact Hread|].
  repeat split; reflexivity.
Qed.

Lemma ivf_file_header_round_trip_64x64_witness :
  exists hdr,
    spec_parse_ivf_file_header
      (write_ivf_file_header []
         {| g_w := 64; g_h := 64; g_timebase := {| num := 1; den := 30 |};
            g_pass := VPX_RC_ONE_PASS; rc_target_bitrate := 13 |} 10)
    = Some hdr
    /\ ivf_width hdr = 64 /\ ivf_height hdr = 64
    /\ ivf_rate hdr = 30 /\ ivf_scale hdr = 1
    /\ ivf_frame_count hdr = 10.
Proof.
  apply (ivf_file_header_round_trip_64x64
           {| g_w := 64; g_h := 64; g_timebase := {| num := 1; den := 30 |};
              g_pass := VPX_RC_ONE_PASS; rc_target_bitrate := 13 |}).
  - reflexivity.
  - reflexivity.
  - reflexivity.
  - reflexivity.
  - left. reflexivity.
Defined.

(** ** The outcome monad *)

Lemma bind_Returned {E A B} (m : M E A) (k : A -> M E B) s v s' :
  m s = Returned v s' -> bind m k s = k v s'.
Proof. unfold bind. intros ->. reflexivity. Qed.

Lemma bind_Exited {E A B} (m : M E A) (k : A -> M E B) s status s' :
  m s = Exited status s' -> bind m k s = Exited status s'.
Proof. unfold bind. intros ->. reflexivity. Qed.

Lemma bind_Undefined {E A B} (m : M E A) (k : A -> M E B) s s' :
  m s = Undefined s' -> bind m k s = Undefined s'.
Proof. unfold bind. intros ->. reflexivity. Qed.

(** Unfold the monad operations and the field updates they perform. *)
Ltac step_session :=
  repeat progress
    (cbv beta iota
       delta [bind ret get modify exit undefined printf log die die_codec];
     cbn [stdout engine_log codec cfg frame_cnt res frame_avail got_data
          flags with_stdout with_engine_log with_codec with_cfg
          with_frame_cnt with_res with_frame_avail with_got_data
          outcome_world]).

(** ** Resolution check of [setup_encoder] *)

Lemma resolution_check_valid (width height : Z) :
  (width <? 16) || negb (Z.rem width 2 =? 0)
  || (height <? 16) || negb (Z.rem height 2 =? 0) = false
  <-> valid_resolution width height.
Proof.
  unfold valid_resolution.
  rewrite !orb_false_iff, !negb_false_iff, !Z.ltb_ge, !Z.eqb_eq.
  rewrite !Z.rem_mod_eq_0 by lia. rewrite !Zeven_mod, !Z.eqb_eq.
  tauto.
Qed.

Lemma die_invalid_resolution (E : Engine) (width height : Z) (s : world E) :
  die E (A := unit) "Invalid resolution: %ldx%ld"
    [Int_arg width; Int_arg height] s
  = Exited EXIT_FAILURE (invalid_resolution_exit width height s).
Proof.
  unfold invalid_resolution_exit. step_session. cbn. step_session.
  rewrite <- app_assoc. reflexivity.
Qed.

Lemma setup_encoder_invalid (E : Engine) (width height : Z) (s : world E) :
  ~ valid_resolution width height ->
  setup_encoder E width height s
  = Exited EXIT_FAILURE (invalid_resolution_exit width height s).
Proof.
  intros Hinv. unfold setup_encoder.
  destruct ((width <? 16) || negb (Z.rem width 2 =? 0)
            || (height <? 16) || negb (Z.rem height 2 =? 0)) eqn:Hrej.
  - apply bind_Exited. apply die_invalid_resolution.
  - apply resolution_check_valid in Hrej. contradiction.
Qed.

Lemma setup_encoder_valid_log (E : Engine) (width height : Z) (s : world E) :
  valid_resolution width height ->
  exists calls,
    engine_log (outcome_world (setup_encoder E width height s))
    = engine_log s ++ Call_enc_config_default 0 :: calls.
Proof.
  intros Hv. apply resolution_check_valid in Hv.
  unfold setup_encoder. rewrite Hv.
  step_session.
  destruct (vpx_codec_enc_config_default E (cfg s) 0) as [r c].
  step_session.
  destruct (decide (r <> 0)); [step_session; exists []; reflexivity|].
  destruct (decide (g_w c = 0 \/ g_h c = 0)); [step_session; exists []; reflexivity|].
  step_session.
  destruct (vpx_codec_enc_init E _ _ 0) as [r' ctx].
  step_session.
  destruct (decide (r' <> 0)).
  - step_session. destruct (vpx_codec_error_detail E ctx); step_session;
      rewrite <- app_assoc; eexists; reflexivity.
  - step_session. rewrite <- app_assoc; eexists; reflexivity.
Qed.

(** C1: [setup_encoder] gets past its resolution check only when both
    dimensions are even and at least 16.  For every other resolution it
    ends the process with the "Invalid resolution" message and
    [EXIT_FAILURE] before any library call: the codec context is untouched
    and no call, in particular no [vpx_codec_enc_init], has been made. *)
Theorem setup_encoder_resolution_check (E : Engine) (width height : Z)
    (s : world E) :
  (forall v s', setup_encoder E width height s = Returned v s' ->
                valid_resolution width height)
  /\ (engine_log (outcome_world (setup_encoder E width height s))
        <> engine_log s ->
      valid_resolution width height)
  /\ (valid_resolution width height ->
      exists calls,
        engine_log (outcome_world (setup_encoder E width height s))
        = engine_log s ++ Call_enc_config_default 0 :: calls)
  /\ (~ valid_resolution width height ->
      setup_encoder E width height s
      = Exited EXIT_FAILURE (invalid_resolution_exit width height s)
      /\ codec (invalid_resolution_exit width height s) = codec s
      /\ engine_log (invalid_resolution_exit width height s) = engine_log s).
Proof.
  assert (Hdec : valid_resolution width height
                 \/ ~ valid_resolution width height).
  { destruct ((width <? 16) || negb (Z.rem width 2 =? 0)
              || (height <? 16) || negb (Z.rem height 2 =? 0)) eqn:Hrej.
    - right. intros Hv. apply resolution_check_valid in Hv. congruence.
    - left. apply resolution_check_valid. exact Hrej. }
  split; [|split; [|split]].
  - intros v s' Hret. destruct Hdec as [Hv | Hinv]; [exact Hv|].
    rewrite (setup_encoder_invalid E width height s Hinv) in Hret.
    discriminate.
  - intros Hlog. destruct Hdec as [Hv | Hinv]; [exact Hv|].
    rewrite (setup_encoder_invalid E width height s Hinv) in Hlog.
    exfalso. apply Hlog. reflexivity.
  - apply setup_encoder_valid_log.
  - intros Hinv. split; [apply setup_encoder_invalid; exact Hinv|].
    split; reflexivity.
Qed.

Lemma setup_encoder_resolution_check_witness :
  setup_encoder Toy.one_packet 18 15 (initial_world _ Toy.zero_cfg)
  = Exited EXIT_FAILURE
      (invalid_resolution_exit 18 15 (initial_world _ Toy.zero_cfg))
  /\ codec (invalid_resolution_exit 18 15
              (initial_world Toy.one_packet Toy.zero_cfg))
     = codec (initial_world Toy.one_packet Toy.zero_cfg)
  /\ engine_log (invalid_resolution_exit 18 15
                   (initial_world Toy.one_packet Toy.zero_cfg))
     = engine_log (initial_world Toy.one_packet Toy.zero_cfg).
Proof.
  apply (setup_encoder_resolution_check Toy.one_packet 18 15
           (initial_world _ Toy.zero_cfg)).
  unfold valid_resolution. intros (_ & _ & H & _). lia.
Defined.

(** ** [read_frame] *)

Lemma read_frame_to_read (img : vpx_image_t) :
  0 < w img -> 0 < h img -> w img * h img * 3 <= UINT_MAX ->
  to_size_t (Z.quot (to_uint (to_uint (w img * h img) * 3)) 2)
  = w img * h img * 3 / 2.
Proof.
  unfold UINT_MAX. intros Hw Hh Hmax.
  assert (Hprod : 0 < w img * h img) by lia.
  rewrite (to_uint_small (w img * h img)) by (unfold UINT_MAX; lia).
  rewrite to_uint_small by (unfold UINT_MAX; lia).
  rewrite Z.quot_div_nonneg by lia.
  unfold to_size_t, wrap_unsigned.
  apply Z.mod_small. split.
  - apply Z.div_pos; lia.
  - apply Z.div_lt_upper_bound; lia.
Qed.

(** [read_frame] has no error exit: it returns on every input. *)
Lemma read_frame_always_returns (E : Engine) (f : list Z)
    (img : vpx_image_t) (s : world E) :
  exists r f' img' s', read_frame E f img s = Returned (r, f', img') s'
                       /\ (r = 0 \/ r = 1).
Proof.
  unfold read_frame, fread.
  destruct (decide _) as [Hne | Heq].
  - destruct (decide _); step_session; eexists _, _, _, _; eauto.
  - step_session. eexists _, _, _, _; eauto.
Qed.

(** C2, amended: for every input and every image whose dimensions are
    positive and whose byte count [w * h * 3] fits an [unsigned int],
    [read_frame] asks for exactly [w * h * 3 / 2] bytes, always returns, and
    tells the three results apart: 1 for a full frame, 0 with the warning
    for a partial frame, 0 without it for an empty read. *)
Theorem read_frame_in_range (E : Engine) (f : list Z) (img : vpx_image_t)
    (s : world E) :
  0 < w img -> 0 < h img -> w img * h img * 3 <= UINT_MAX ->
  read_frame_as_specified E f img s.
Proof.
  intros Hw Hh Hmax. unfold read_frame_as_specified, read_frame.
  rewrite (read_frame_to_read img Hw Hh Hmax).
  set (required := w img * h img * 3 / 2).
  assert (Hreq : 1 <= required).
  { unfold required. apply Z.div_le_lower_bound; lia. }
  unfold fread.
  assert (Hn : Z.of_nat (length (take (Z.to_nat required) f))
               = Z.min required (Z.of_nat (length f))).
  { rewrite length_take. lia. }
  rewrite Hn.
  set (nread := Z.min required (Z.of_nat (length f))).
  assert (Htake : take (Z.to_nat required) f = take (Z.to_nat nread) f).
  { unfold nread. destruct (Z.min_spec required (Z.of_nat (length f)))
      as [[Hlt ->] | [Hle ->]]; [reflexivity|].
    rewrite Nat2Z.id. rewrite firstn_all. apply take_ge. lia. }
  assert (Hdrop : drop (Z.to_nat required) f = drop (Z.to_nat nread) f).
  { unfold nread. destruct (Z.min_spec required (Z.of_nat (length f)))
      as [[Hlt ->] | [Hle ->]]; [reflexivity|].
    rewrite Nat2Z.id. rewrite drop_all. apply drop_ge. lia. }
  assert (Hlen : length (take (Z.to_nat nread) f) = Z.to_nat nread).
  { rewrite length_take. unfold nread. lia. }
  rewrite Htake, Hdrop, Hlen.
  destruct (decide (nread <> required)) as [Hne | Heq].
  - destruct (decide (nread > 0)) as [Hpos | Hzero].
    + step_session. eexists _, _, _. split; [reflexivity|].
      split; [reflexivity|]. split; [reflexivity|].
      intros result Hspec. destruct Hspec; try lia. constructor.
    + step_session. eexists _, _, _. split; [reflexivity|].
      split; [reflexivity|]. split; [reflexivity|].
      intros result Hspec. destruct Hspec; try lia. constructor.
  - step_session. eexists _, _, _. split; [reflexivity|].
    split; [reflexivity|]. split; [reflexivity|].
    intros result Hspec. destruct Hspec; try lia. constructor.
Qed.

Lemma read_frame_in_range_witness :
  read_frame_as_specified Toy.one_packet [1; 2; 3]
    {| fmt := 0; w := 2; h := 2; planes0 := [0; 0; 0; 0; 0; 0] |}
    (initial_world _ Toy.zero_cfg).
Proof.
  apply (read_frame_in_range Toy.one_packet [1; 2; 3]
           {| fmt := 0; w := 2; h := 2; planes0 := [0; 0; 0; 0; 0; 0] |}
           (initial_world _ Toy.zero_cfg)).
  - simpl. lia.
  - simpl. lia.
  - unfold UINT_MAX. simpl. lia.
Defined.

(** C2 as stated fails where the byte count leaves the [unsigned int]
    range: for a 65536 x 65536 image the product wraps to 0, so on a
    three-byte input the call asks for nothing, consumes nothing and
    returns 1, where the specification has a partial read of three bytes. *)
Lemma read_frame_wraps_at_65536 :
  ~ read_frame_as_specified Toy.one_packet [1; 2; 3]
      {| fmt := 0; w := 65536; h := 65536; planes0 := [] |}
      (initial_world _ Toy.zero_cfg).
Proof.
  intros (r & img' & s' & Hrun & _).
  vm_compute in Hrun. discriminate Hrun.
Qed.

(** ** [encode_frame] *)

(** The three ways a call of [encode_frame] ends, by what the library
    answers. *)
Lemma encode_frame_rejected (E : Engine) (raw : vpx_image_t) (s : world E)
    (r : vpx_codec_err_t) (ctx : vpx_codec_ctx_t E) :
  engine_encode E raw s = (r, ctx) -> r <> 0 ->
  exists s',
    encode_frame E raw s = Exited EXIT_FAILURE s'
    /\ codec s' = ctx /\ frame_cnt s' = frame_cnt s
    /\ engine_log s' = engine_log s ++ [encode_call raw s].
Proof.
  unfold engine_encode, encode_call. intros Henc Hr.
  unfold encode_frame. step_session.
  destruct (decide (1 <> 0)) as [_ | Hcontra]; [|exfalso; apply Hcontra; lia].
  rewrite Henc. step_session.
  destruct (decide (r <> 0)) as [_ | Hcontra]; [|contradiction].
  step_session.
  destruct (vpx_codec_error_detail E ctx); step_session;
    eexists; (split; [reflexivity|]); cbn; auto.
Qed.

Lemma encode_frame_no_packet (E : Engine) (raw : vpx_image_t) (s : world E)
    (ctx : vpx_codec_ctx_t E) :
  engine_encode E raw s = (0, ctx) -> cx_data E ctx = [] ->
  exists s',
    encode_frame E raw s = Undefined s'
    /\ codec s' = ctx /\ frame_cnt s' = frame_cnt s
    /\ engine_log s' = engine_log s ++ [encode_call raw s; Call_get_cx_data 0].
Proof.
  unfold engine_encode, encode_call. intros Henc Hdata.
  unfold encode_frame. step_session.
  destruct (decide (1 <> 0)) as [_ | Hcontra]; [|exfalso; apply Hcontra; lia].
  rewrite Henc. step_session.
  destruct (decide (0 <> 0)) as [Hcontra | _]; [contradiction|].
  step_session. unfold vpx_codec_get_cx_data. rewrite Hdata.
  step_session. cbn [lookup list_lookup]. step_session.
  eexists. split; [reflexivity|]. cbn. rewrite <- app_assoc. auto.
Qed.

Lemma encode_frame_first (E : Engine) (raw : vpx_image_t) (s : world E)
    (ctx : vpx_codec_ctx_t E) (pkt : vpx_codec_cx_pkt_t)
    (rest : list vpx_codec_cx_pkt_t) :
  engine_encode E raw s = (0, ctx) -> cx_data E ctx = pkt :: rest ->
  exists s',
    encode_frame E raw s = Returned pkt s'
    /\ codec s' = ctx /\ frame_cnt s' = to_int (frame_cnt s + 1)
    /\ engine_log s' = engine_log s ++ [encode_call raw s; Call_get_cx_data 0]
    /\ cfg s' = cfg s /\ flags s' = flags s.
Proof.
  unfold engine_encode, encode_call. intros Henc Hdata.
  unfold encode_frame. step_session.
  destruct (decide (1 <> 0)) as [_ | Hcontra]; [|exfalso; apply Hcontra; lia].
  rewrite Henc. step_session.
  destruct (decide (0 <> 0)) as [Hcontra | _]; [contradiction|].
  step_session. unfold vpx_codec_get_cx_data. rewrite Hdata.
  step_session. cbn [lookup list_lookup]. step_session.
  destruct (kind pkt); step_session;
    eexists; (split; [reflexivity|]); cbn; rewrite <- app_assoc; auto.
Qed.

(** A call that returns was accepted by the library and found a first
    packet, which is what it returns. *)
Lemma encode_frame_Returned_inv (E : Engine) (raw : vpx_image_t)
    (s s' : world E) (pkt : vpx_codec_cx_pkt_t) :
  encode_frame E raw s = Returned pkt s' ->
  exists rest,
    engine_encode E raw s = (0, codec s')
    /\ cx_data E (codec s') = pkt :: rest
    /\ frame_cnt s' = to_int (frame_cnt s + 1)
    /\ engine_log s' = engine_log s ++ [encode_call raw s; Call_get_cx_data 0].
Proof.
  intros Hret.
  destruct (engine_encode E raw s) as [r ctx] eqn:Henc.
  destruct (decide (r = 0)) as [-> | Hr].
  - destruct (cx_data E ctx) as [|p rest] eqn:Hdata.
    + destruct (encode_frame_no_packet E raw s ctx Henc Hdata)
        as (s1 & Hrun & _). congruence.
    + destruct (encode_frame_first E raw s ctx p rest Henc Hdata)
        as (s1 & Hrun & Hc & Hcnt & Hlog & _).
      rewrite Hrun in Hret. injection Hret as -> ->.
      exists rest. subst ctx. rewrite Hdata. auto.
  - destruct (encode_frame_rejected E raw s r ctx Henc Hr)
      as (s1 & Hrun & _). congruence.
Qed.

(** C9: [encode_frame] reads [pkt->kind] of the first packet pointer
    without a null check.  When the library accepts the frame and holds no
    packet for the call, the call runs into the null dereference; a call
    returns only if the library accepted the frame and held at least one
    packet. *)
Theorem encode_frame_null_packet (E : Engine) (raw : vpx_image_t)
    (s : world E) :
  (forall ctx,
      engine_encode E raw s = (0, ctx) -> cx_data E ctx = [] ->
      exists s', encode_frame E raw s = Undefined s'
                 /\ frame_cnt s' = frame_cnt s)
  /\ (forall pkt s',
        encode_frame E raw s = Returned pkt s' ->
        fst (engine_encode E raw s) = 0
        /\ cx_data E (snd (engine_encode E raw s)) <> []).
Proof.
  split.
  - intros ctx Henc Hdata.
    destruct (encode_frame_no_packet E raw s ctx Henc Hdata)
      as (s' & Hrun & _ & Hcnt & _).
    exists s'. auto.
  - intros pkt s' Hret.
    destruct (encode_frame_Returned_inv E raw s s' pkt Hret)
      as (rest & Henc & Hdata & _).
    rewrite Henc. cbn [fst snd]. split; [reflexivity|].
    rewrite Hdata. discriminate.
Qed.

Lemma encode_frame_null_packet_witness :
  exists s',
    encode_frame Toy.lagging (Toy.image 64 64) (Toy.ready Toy.lagging)
    = Undefined s'
    /\ frame_cnt s' = frame_cnt (Toy.ready Toy.lagging).
Proof.
  apply (proj1 (encode_frame_null_packet Toy.lagging (Toy.image 64 64)
                  (Toy.ready Toy.lagging))
           {| Toy.live := true; Toy.pending := [] |}).
  - reflexivity.
  - reflexivity.
Defined.

(** C3, amended: when the library accepts the frame and holds at least one
    packet for the call, [encode_frame] returns exactly the first of them;
    it asks the library for a packet once, at the null iterator, so the
    packets after the first are neither fetched nor returned. *)
Theorem encode_frame_first_packet (E : Engine) (raw : vpx_image_t)
    (s : world E) :
  (forall ctx pkt rest,
      engine_encode E raw s = (0, ctx) -> cx_data E ctx = pkt :: rest ->
      exists s',
        encode_frame E raw s = Returned pkt s'
        /\ engine_log s'
           = engine_log s ++ [encode_call raw s; Call_get_cx_data 0])
  /\ (forall pkt s',
        encode_frame E raw s = Returned pkt s' ->
        head (cx_data E (codec s')) = Some pkt).
Proof.
  split.
  - intros ctx pkt rest Henc Hdata.
    destruct (encode_frame_first E raw s ctx pkt rest Henc Hdata)
      as (s' & Hrun & _ & _ & Hlog & _).
    exists s'. auto.
  - intros pkt s' Hret.
    destruct (encode_frame_Returned_inv E raw s s' pkt Hret)
      as (rest & _ & Hdata & _).
    rewrite Hdata. reflexivity.
Qed.

Lemma encode_frame_first_packet_witness :
  exists s',
    encode_frame Toy.two_packets (Toy.image 64 64) (Toy.ready Toy.two_packets)
    = Returned (Toy.frame_packet 0 0) s'
    /\ engine_log s'
       = engine_log (Toy.ready Toy.two_packets)
         ++ [encode_call (Toy.image 64 64) (Toy.ready Toy.two_packets);
             Call_get_cx_data 0].
Proof.
  apply (proj1 (encode_frame_first_packet Toy.two_packets (Toy.image 64 64)
                  (Toy.ready Toy.two_packets))
           {| Toy.live := true;
              Toy.pending := [Toy.frame_packet 0 0; Toy.stats_packet] |}
           (Toy.frame_packet 0 0) [Toy.stats_packet]).
  - reflexivity.
  - reflexivity.
Defined.

(** C3 as stated fails on a library that holds two packets for a call: the
    call returns the first packet alone. *)
Lemma encode_frame_leaves_second_packet :
  ~ encode_frame_drains Toy.two_packets (Toy.image 64 64)
      (Toy.ready Toy.two_packets).
Proof.
  intros Hdrain.
  specialize (Hdrain {| Toy.live := true;
                        Toy.pending := [Toy.frame_packet 0 0;
                                        Toy.stats_packet] |} eq_refl).
  vm_compute in Hdrain. discriminate Hdrain.
Qed.

(** ** The frame counter *)

Lemma to_int_idem (z : Z) : to_int (to_int z) = to_int z.
Proof. apply to_int_small. apply to_int_range. Qed.

Lemma to_int_add_l (a b : Z) : to_int (to_int a + b) = to_int (a + b).
Proof.
  unfold to_int, wrap_signed.
  replace ((a + 2 ^ (32 - 1)) mod 2 ^ 32 - 2 ^ (32 - 1) + b + 2 ^ (32 - 1))
    with ((a + 2 ^ (32 - 1)) mod 2 ^ 32 + b) by lia.
  rewrite Zplus_mod_idemp_l. f_equal. f_equal. lia.
Qed.

(** The counter after a run of calls that all returned, for every
    library: the start value plus the number of calls, in [int]
    arithmetic. *)
Lemma encode_frames_frame_cnt (E : Engine) (raws : list vpx_image_t) :
  forall (s s' : world E) pkts,
    encode_frames E raws s = Returned pkts s' ->
    to_int (frame_cnt s') = to_int (frame_cnt s + Z.of_nat (length raws))
    /\ length pkts = length raws
    /\ (raws <> [] -> frame_cnt s' = to_int (frame_cnt s'))
    /\ (raws = [] -> frame_cnt s' = frame_cnt s).
Proof.
  induction raws as [|raw rest IH]; intros s s' pkts Hrun.
  - cbn in Hrun. unfold ret in Hrun. injection Hrun as <- <-.
    cbn [length]. rewrite Z.add_0_r. repeat split; auto. congruence.
  - cbn [encode_frames] in Hrun. unfold bind in Hrun.
    destruct (encode_frame E raw s) as [pkt s1| |] eqn:Hcall;
      try discriminate Hrun.
    destruct (encode_frames E rest s1) as [pkts1 s2| |] eqn:Hrest;
      try discriminate Hrun.
    unfold ret in Hrun. injection Hrun as <- <-.
    destruct (encode_frame_Returned_inv E raw s s1 pkt Hcall)
      as (_ & _ & _ & Hcnt & _).
    destruct (IH s1 s2 pkts1 Hrest) as (Hcnt2 & Hlen & Hne & Hnil).
    assert (Hfinal : to_int (frame_cnt s2)
                     = to_int (frame_cnt s + Z.of_nat (length (raw :: rest)))).
    { rewrite Hcnt2, Hcnt, to_int_add_l. f_equal. cbn [length]. lia. }
    split; [exact Hfinal|]. split; [cbn [length]; lia|].
    split; [|discriminate].
    intros _. destruct rest as [|raw' rest'].
    + rewrite (Hnil eq_refl), Hcnt. symmetry. apply to_int_idem.
    + apply Hne. discriminate.
Qed.

(** On a library that always emits, every run of calls returns. *)
Lemma encode_frames_returns (E : Engine) (raws : list vpx_image_t) :
  always_emits E ->
  forall s : world E, exists pkts s', encode_frames E raws s = Returned pkts s'.
Proof.
  intros Hemit. induction raws as [|raw rest IH]; intros s.
  - exists [], s. reflexivity.
  - destruct (Hemit (codec s) (Some raw) (frame_cnt s) 1 (flags s)
                VPX_DL_REALTIME) as (ctx & pkt & more & Henc & Hdata).
    destruct (encode_frame_first E raw s ctx pkt more Henc Hdata)
      as (s1 & Hcall & _).
    destruct (IH s1) as (pkts & s2 & Hrest).
    exists (pkt :: pkts), s2.
    cbn [encode_frames]. unfold bind. rewrite Hcall, Hrest. reflexivity.
Qed.

(** C4, amended: starting from a counter of 0, a run of at most
    [INT_MAX] calls of [encode_frame] that have all returned leaves the
    counter at the number of calls, whatever library is driven and
    whatever packets it held for each call; each call handed one packet
    back. *)
Theorem encode_frames_counts_calls (E : Engine) (raws : list vpx_image_t)
    (s : world E) :
  frame_cnt s = 0 ->
  Z.of_nat (length raws) <= INT_MAX ->
  counts_calls E raws s.
Proof.
  intros Hzero Hmax pkts s' Hrun.
  destruct (encode_frames_frame_cnt E raws s s' pkts Hrun)
    as (Hcnt & _ & Hne & Hnil).
  destruct raws as [|raw rest].
  - rewrite (Hnil eq_refl). cbn [length]. lia.
  - rewrite (Hne ltac:(discriminate)), Hcnt, Hzero.
    apply to_int_small. unfold INT_MAX in *. lia.
Qed.

Lemma encode_frames_counts_calls_witness :
  counts_calls Toy.two_packets (replicate 3 (Toy.image 64 64))
    (Toy.ready Toy.two_packets).
Proof.
  apply (encode_frames_counts_calls Toy.two_packets
           (replicate 3 (Toy.image 64 64)) (Toy.ready Toy.two_packets)).
  - reflexivity.
  - unfold INT_MAX. simpl. lia.
Defined.

Example three_calls_two_packets_each :
  exists pkts s',
    encode_frames Toy.two_packets (replicate 3 (Toy.image 64 64))
      (Toy.ready Toy.two_packets) = Returned pkts s'
    /\ frame_cnt s' = 3 /\ length pkts = 3%nat.
Proof.
  eexists _, _. split; [vm_compute; reflexivity|]. split; reflexivity.
Qed.

Lemma steady_always_emits : always_emits Toy.steady.
Proof.
  intros ctx img pts duration fl deadline.
  eexists _, _, _. split; reflexivity.
Qed.

(** C4 as stated fails for runs longer than an [int] can count: after
    [2 ^ 31] calls that all returned, on a library that holds one packet
    for every call, the counter is not [2 ^ 31]. *)
Lemma frame_counter_wraps :
  ~ counts_calls Toy.steady
      (replicate (Z.to_nat (2 ^ 31)) (Toy.image 64 64))
      (Toy.ready Toy.steady).
Proof.
  intros Hclaim.
  destruct (encode_frames_returns Toy.steady
              (replicate (Z.to_nat (2 ^ 31)) (Toy.image 64 64))
              steady_always_emits (Toy.ready Toy.steady))
    as (pkts & s' & Hrun).
  pose proof (Hclaim pkts s' Hrun) as Hcnt.
  destruct (encode_frames_frame_cnt _ _ _ _ _ Hrun) as (_ & _ & Hrange & _).
  rewrite length_replicate, Z2Nat.id in Hcnt by lia.
  assert (Hne : replicate (Z.to_nat (2 ^ 31)) (Toy.image 64 64) <> []).
  { intros Hnil. apply (f_equal length) in Hnil.
    rewrite length_replicate in Hnil. cbn [length] in Hnil. lia. }
  specialize (Hrange Hne).
  pose proof (to_int_range (frame_cnt s')) as Hint.
  rewrite <- Hrange in Hint. rewrite Hcnt in Hint.
  change (frame_cnt (Toy.ready Toy.steady)) with 0 in Hint.
  unfold INT_MAX in Hint. lia.
Qed.

(** ** [finalise_encoder] *)

Lemma finalise_encoder_released (E : Engine) (s : world E)
    (ctx : vpx_codec_ctx_t E) :
  vpx_codec_destroy E (codec s) = (0, ctx) ->
  finalise_encoder E s
  = Returned EXIT_SUCCESS
      (with_engine_log (engine_log s ++ [Call_destroy])
         (with_codec ctx
            (with_stdout
               (stdout s ++ [processed_line (to_int (frame_cnt s - 1))]) s))).
Proof.
  intros Hdestroy. unfold finalise_encoder. step_session.
  rewrite Hdestroy. step_session.
  destruct (decide (0 <> 0)) as [Hcontra | _]; [contradiction|].
  reflexivity.
Qed.

Lemma finalise_encoder_failed (E : Engine) (s : world E)
    (r : vpx_codec_err_t) (ctx : vpx_codec_ctx_t E) :
  vpx_codec_destroy E (codec s) = (r, ctx) -> r <> 0 ->
  exists s' out,
    finalise_encoder E s = Exited EXIT_FAILURE s'
    /\ stdout s'
       = stdout s ++ processed_line (to_int (frame_cnt s - 1)) :: out
    /\ engine_log s' = engine_log s ++ [Call_destroy]
    /\ frame_cnt s' = frame_cnt s.
Proof.
  intros Hdestroy Hr. unfold finalise_encoder. step_session.
  rewrite Hdestroy. step_session.
  destruct (decide (r <> 0)) as [_ | Hcontra]; [|contradiction].
  step_session.
  destruct (vpx_codec_error_detail E ctx); step_session;
    eexists _, _; (split; [reflexivity|]); cbn;
    rewrite <- ?app_assoc; auto.
Qed.

(** What [finalise_encoder] does in every world: it prints the counter
    less one, then asks the library to destroy the context. *)
Lemma finalise_encoder_effects (E : Engine) (s : world E) :
  (exists out,
      stdout (outcome_world (finalise_encoder E s))
      = stdout s ++ processed_line (to_int (frame_cnt s - 1)) :: out)
  /\ engine_log (outcome_world (finalise_encoder E s))
     = engine_log s ++ [Call_destroy]
  /\ frame_cnt (outcome_world (finalise_encoder E s)) = frame_cnt s.
Proof.
  destruct (vpx_codec_destroy E (codec s)) as [r ctx] eqn:Hdestroy.
  destruct (decide (r = 0)) as [-> | Hr].
  - rewrite (finalise_encoder_released E s ctx Hdestroy). cbn.
    split; [exists []; reflexivity|]. auto.
  - destruct (finalise_encoder_failed E s r ctx Hdestroy Hr)
      as (s' & out & -> & Hout & Hlog & Hcnt). cbn.
    split; [exists out; exact Hout|]. auto.
Qed.

(** C5, on the code: a run of ten frames at 64 x 64 ends with the counter
    at 10 and a successful [finalise_encoder], whose report reads
    "Processed 9 frames". *)
Theorem ten_frame_run_reports_nine :
  exists s',
    session_run Toy.one_packet 64 64 (replicate 10 (Toy.image 64 64))
      (initial_world _ Toy.zero_cfg)
    = Returned EXIT_SUCCESS s'
    /\ frame_cnt s' = 10
    /\ last (stdout s') = Some (processed_line 9).
Proof.
  eexists. split; [vm_compute; reflexivity|]. split; reflexivity.
Qed.

(** ** Operations on a finalised session *)

(** C8, amended: the file keeps no session state, so after a completed
    [finalise_encoder] both operations run as in any other world.  A
    second [finalise_encoder] prints its report again and asks the library
    to destroy the context again; [encode_frame] submits the frame to the
    library again.  Each ends the process with [EXIT_FAILURE] exactly when
    the library reports an error for that call, and the frame counter is
    then unchanged; otherwise the second [finalise_encoder] returns
    [EXIT_SUCCESS]. *)
Theorem finalised_session_unguarded (E : Engine) (raw : vpx_image_t)
    (s0 s : world E) (v : Z) :
  finalise_encoder E s0 = Returned v s ->
  ((exists out,
       stdout (outcome_world (finalise_encoder E s))
       = stdout s ++ processed_line (to_int (frame_cnt s - 1)) :: out)
   /\ engine_log (outcome_world (finalise_encoder E s))
      = engine_log s ++ [Call_destroy]
   /\ frame_cnt (outcome_world (finalise_encoder E s)) = frame_cnt s
   /\ (fst (vpx_codec_destroy E (codec s)) <> 0 ->
       exists s', finalise_encoder E s = Exited EXIT_FAILURE s')
   /\ (fst (vpx_codec_destroy E (codec s)) = 0 ->
       exists s', finalise_encoder E s = Returned EXIT_SUCCESS s'))
  /\ ((exists calls,
         engine_log (outcome_world (encode_frame E raw s))
         = engine_log s ++ encode_call raw s :: calls)
      /\ (fst (engine_encode E raw s) <> 0 ->
          exists s', encode_frame E raw s = Exited EXIT_FAILURE s'
                     /\ frame_cnt s' = frame_cnt s)
      /\ (forall status s',
            encode_frame E raw s = Exited status s' ->
            fst (engine_encode E raw s) <> 0)).
Proof.
  intros _. split.
  - destruct (finalise_encoder_effects E s) as (Hout & Hlog & Hcnt).
    split; [exact Hout|]. split; [exact Hlog|]. split; [exact Hcnt|].
    destruct (vpx_codec_destroy E (codec s)) as [r ctx] eqn:Hdestroy.
    cbn [fst]. split.
    + intros Hr.
      destruct (finalise_encoder_failed E s r ctx Hdestroy Hr)
        as (s' & _ & Hrun & _).
      exists s'. exact Hrun.
    + intros ->. eexists. apply (finalise_encoder_released E s ctx Hdestroy).
  - destruct (engine_encode E raw s) as [r ctx] eqn:Henc. cbn [fst].
    destruct (decide (r = 0)) as [-> | Hr].
    + destruct (cx_data E ctx) as [|pkt rest] eqn:Hdata.
      * destruct (encode_frame_no_packet E raw s ctx Henc Hdata)
          as (s' & Hrun & _ & _ & Hlog).
        rewrite Hrun. cbn [outcome_world].
        split; [eexists; exact Hlog|].
        split; [intros Hcontra; contradiction|].
        intros status s1 Hexit. discriminate Hexit.
      * destruct (encode_frame_first E raw s ctx pkt rest Henc Hdata)
          as (s' & Hrun & _ & _ & Hlog & _).
        rewrite Hrun. cbn [outcome_world].
        split; [eexists; exact Hlog|].
        split; [intros Hcontra; contradiction|].
        intros status s1 Hexit. discriminate Hexit.
    + destruct (encode_frame_rejected E raw s r ctx Henc Hr)
        as (s' & Hrun & _ & Hcnt & Hlog).
      rewrite Hrun. cbn [outcome_world].
      split; [exists []; exact Hlog|].
      split; [intros _; exists s'; auto|].
      intros _ _ _. exact Hr.
Qed.

Lemma finalised_session_unguarded_witness :
  exists out,
    stdout (outcome_world
              (finalise_encoder Toy.one_packet
                 (outcome_world
                    (finalise_encoder Toy.one_packet
                       (Toy.ready Toy.one_packet)))))
    = stdout (outcome_world
                (finalise_encoder Toy.one_packet (Toy.ready Toy.one_packet)))
      ++ processed_line (-1) :: out.
Proof.
  apply (proj1 (finalised_session_unguarded Toy.one_packet (Toy.image 64 64)
                  (Toy.ready Toy.one_packet)
                  (outcome_world
                     (finalise_encoder Toy.one_packet
                        (Toy.ready Toy.one_packet)))
                  EXIT_SUCCESS eq_refl)).
Defined.

(** C8 as stated fails: on a session that [finalise_encoder] has
    completed, the operations are not without effect; a second
    [finalise_encoder] already prints its report before anything else. *)
Lemma finalised_session_not_inert :
  exists s,
    finalise_encoder Toy.one_packet (Toy.ready Toy.one_packet)
    = Returned EXIT_SUCCESS s
    /\ ~ finalised_session_is_inert Toy.one_packet (Toy.image 64 64) s.
Proof.
  eexists. split; [vm_compute; reflexivity|].
  intros [[Hworld _] _]. vm_compute in Hworld. discriminate Hworld.
Qed.

(** ** The target bit rate *)

(** The configuration [setup_encoder] leaves when the resolution is valid
    and the library gives defaults [c] with non-zero dimensions. *)
Lemma setup_encoder_cfg (E : Engine) (width height : Z) (s : world E)
    (c : vpx_codec_enc_cfg_t) :
  valid_resolution width height ->
  vpx_codec_enc_config_default E (cfg s) 0 = (0, c) ->
  g_w c <> 0 -> g_h c <> 0 ->
  cfg (outcome_world (setup_encoder E width height s))
  = set_g_h (to_uint height)
      (set_g_w (to_uint width)
         (set_rc_target_bitrate
            (to_uint
               (Z.quot
                  (Z.quot
                     (to_long (to_long (width * height) * rc_target_bitrate c))
                     (g_w c))
                  (g_h c)))
            c)).
Proof.
  intros Hv Hdef Hw Hh. apply resolution_check_valid in Hv.
  unfold setup_encoder. rewrite Hv. step_session.
  rewrite Hdef. step_session.
  destruct (decide (0 <> 0)) as [Hcontra | _]; [contradiction|].
  destruct (decide (g_w c = 0 \/ g_h c = 0)) as [[Hz | Hz] | _];
    [contradiction | contradiction |].
  step_session.
  destruct (vpx_codec_enc_init E _ _ 0) as [r ctx].
  step_session.
  destruct (decide (r <> 0)); step_session; [|reflexivity].
  destruct (vpx_codec_error_detail E ctx); reflexivity.
Qed.

(** C6, amended: for every valid resolution and library defaults with
    positive dimensions, when [width * height * default bit rate] fits a
    [long] and the scaled rate fits an [unsigned int], the configured
    [rc_target_bitrate] is [width * height * default bit rate] divided by
    the default pixel count. *)
Theorem setup_encoder_bitrate (E : Engine) (width height : Z) (s : world E)
    (c : vpx_codec_enc_cfg_t) :
  valid_resolution width height ->
  vpx_codec_enc_config_default E (cfg s) 0 = (0, c) ->
  0 < g_w c -> 0 < g_h c -> 0 <= rc_target_bitrate c ->
  width * height <= LONG_MAX ->
  width * height * rc_target_bitrate c <= LONG_MAX ->
  width * height * rc_target_bitrate c / (g_w c * g_h c) <= UINT_MAX ->
  rc_target_bitrate (cfg (outcome_world (setup_encoder E width height s)))
  = width * height * rc_target_bitrate c / (g_w c * g_h c).
Proof.
  intros Hv Hdef Hw Hh Hb Hwh Hprod Hq.
  rewrite (setup_encoder_cfg E width height s c Hv Hdef) by lia.
  cbn [set_g_h set_g_w set_rc_target_bitrate rc_target_bitrate].
  destruct Hv as (Hw16 & _ & Hh16 & _).
  assert (Hpix : 0 <= width * height) by lia.
  assert (Hnum : 0 <= width * height * rc_target_bitrate c) by lia.
  rewrite (to_long_small (width * height)) by lia.
  rewrite to_long_small by lia.
  rewrite (Z.quot_div_nonneg (width * height * rc_target_bitrate c) (g_w c))
    by lia.
  rewrite Z.quot_div_nonneg by (try apply Z.div_pos; lia).
  rewrite Z.div_div by lia.
  apply to_uint_small. split; [|exact Hq].
  apply Z.div_pos; lia.
Qed.

Lemma setup_encoder_bitrate_witness :
  rc_target_bitrate
    (cfg (outcome_world
            (setup_encoder Toy.one_packet 640 480
               (initial_world _ Toy.zero_cfg))))
  = 640 * 480 * rc_target_bitrate Toy.default_cfg
    / (g_w Toy.default_cfg * g_h Toy.default_cfg).
Proof.
  apply (setup_encoder_bitrate Toy.one_packet 640 480
           (initial_world _ Toy.zero_cfg) Toy.default_cfg).
  - unfold valid_resolution. repeat split; try lia; reflexivity.
  - reflexivity.
  - simpl. lia.
  - simpl. lia.
  - simpl. lia.
  - unfold LONG_MAX. lia.
  - unfold LONG_MAX. simpl. lia.
  - unfold UINT_MAX. vm_compute. discriminate.
Defined.

Example bitrate_640x480 :
  rc_target_bitrate
    (cfg (outcome_world
            (setup_encoder Toy.one_packet 640 480
               (initial_world _ Toy.zero_cfg))))
  = 1024.
Proof. reflexivity. Qed.

(** C6 as stated fails for a valid resolution whose scaled rate leaves the
    [unsigned int] range: at 2097152 x 2097152 with the defaults
    320 x 240 at 256, the exact quotient is 14660155037 and the stored
    rate is that value modulo [2 ^ 32]. *)
Lemma bitrate_truncated_at_2097152 :
  valid_resolution 2097152 2097152
  /\ ~ bitrate_as_specified Toy.one_packet 2097152 2097152
         (initial_world _ Toy.zero_cfg).
Proof.
  split.
  - unfold valid_resolution. repeat split; try lia; reflexivity.
  - intros Hclaim. specialize (Hclaim Toy.default_cfg eq_refl).
    vm_compute in Hclaim. discriminate Hclaim.
Qed.

Example bitrate_2097152 :
  rc_target_bitrate
    (cfg (outcome_world
            (setup_encoder Toy.one_packet 2097152 2097152
               (initial_world _ Toy.zero_cfg))))
  = 1775253149
  /\ 2097152 * 2097152 * 256 / (320 * 240) = 14660155037.
Proof. split; reflexivity. Qed.

(** * Further properties of the file's functions *)

(** ** [mem_put_le16] and [mem_put_le32] *)

Lemma take_drop_lookup_1 (l : list Z) (i : nat) (b : Z) :
  l !! i = Some b -> take 1 (drop i l) = [b].
Proof. intros H. rewrite (drop_S _ _ _ H). reflexivity. Qed.

Lemma take_drop_lookup_2 (l : list Z) (i : nat) (b0 b1 : Z) :
  l !! i = Some b0 -> l !! (i + 1)%nat = Some b1 ->
  take 2 (drop i l) = [b0; b1].
Proof.
  intros H0 H1. rewrite (drop_S _ _ _ H0).
  replace (S i) with (i + 1)%nat by lia.
  rewrite (drop_S _ _ _ H1). reflexivity.
Qed.

Lemma take_drop_lookup_4 (l : list Z) (i : nat) (b0 b1 b2 b3 : Z) :
  l !! i = Some b0 -> l !! (i + 1)%nat = Some b1 ->
  l !! (i + 2)%nat = Some b2 -> l !! (i + 3)%nat = Some b3 ->
  take 4 (drop i l) = [b0; b1; b2; b3].
Proof.
  intros H0 H1 H2 H3. rewrite (drop_S _ _ _ H0).
  replace (S i) with (i + 1)%nat by lia. rewrite (drop_S _ _ _ H1).
  replace (S (i + 1)) with (i + 2)%nat by lia. rewrite (drop_S _ _ _ H2).
  replace (S (i + 2)) with (i + 3)%nat by lia. rewrite (drop_S _ _ _ H3).
  reflexivity.
Qed.

(** Look a byte up after a chain of stores: skip the stores at other
    offsets, then hit the store at this one. *)
Ltac lookup_store :=
  unfold store;
  repeat (rewrite list_lookup_insert_ne by lia);
  try (rewrite list_lookup_insert_eq by (rewrite ?length_insert; lia));
  try reflexivity.

Lemma mem_put_le16_length (mem : list Z) (off : nat) (val : Z) :
  length (mem_put_le16 mem off val) = length mem.
Proof. unfold mem_put_le16, store. rewrite !length_insert. reflexivity. Qed.

Lemma mem_put_le32_length (mem : list Z) (off : nat) (val : Z) :
  length (mem_put_le32 mem off val) = length mem.
Proof. unfold mem_put_le32, store. rewrite !length_insert. reflexivity. Qed.

Lemma mem_put_le16_other (mem : list Z) (off : nat) (val : Z) (j : nat) :
  (j < off \/ off + 2 <= j)%nat ->
  mem_put_le16 mem off val !! j = mem !! j.
Proof. intros Hj. unfold mem_put_le16. lookup_store. Qed.

Lemma mem_put_le32_other (mem : list Z) (off : nat) (val : Z) (j : nat) :
  (j < off \/ off + 4 <= j)%nat ->
  mem_put_le32 mem off val !! j = mem !! j.
Proof. intros Hj. unfold mem_put_le32. lookup_store. Qed.

Lemma le_read_mem_put_le16 (mem : list Z) (off : nat) (val : Z) :
  (off + 2 <= length mem)%nat ->
  le_read (mem_put_le16 mem off val) off 2 = to_uint val mod 2 ^ 16.
Proof.
  intros Hlen. unfold le_read.
  rewrite (take_drop_lookup_2 _ off (to_byte (to_uint val))
             (to_byte (Z.shiftr (to_uint val) 8))).
  - cbn [le_combine]. apply le16_bytes.
  - unfold mem_put_le16. lookup_store.
  - unfold mem_put_le16. lookup_store.
Qed.

Lemma le_read_mem_put_le32 (mem : list Z) (off : nat) (val : Z) :
  (off + 4 <= length mem)%nat ->
  le_read (mem_put_le32 mem off val) off 4 = to_uint val.
Proof.
  intros Hlen. unfold le_read.
  rewrite (take_drop_lookup_4 _ off (to_byte (to_uint val))
             (to_byte (Z.shiftr (to_uint val) 8))
             (to_byte (Z.shiftr (to_uint val) 16))
             (to_byte (Z.shiftr (to_uint val) 24))).
  - cbn [le_combine]. rewrite le32_bytes.
    unfold to_uint, wrap_unsigned. apply Z.mod_mod. lia.
  - unfold mem_put_le32. lookup_store.
  - unfold mem_put_le32. lookup_store.
  - unfold mem_put_le32. lookup_store.
  - unfold mem_put_le32. lookup_store.
Qed.

(** A read of a slot that a later store does not touch. *)
Lemma le_read_other (mem mem' : list Z) (off n : nat) :
  length mem' = length mem ->
  (forall j, (off <= j < off + n)%nat -> mem' !! j = mem !! j) ->
  le_read mem' off n = le_read mem off n.
Proof.
  intros Hlen Hsame. unfold le_read. f_equal.
  apply list_eq. intros i.
  destruct (decide (i < n)%nat) as [Hi | Hi].
  - rewrite !lookup_take_lt by lia. rewrite !lookup_drop. apply Hsame. lia.
  - rewrite !lookup_take_ge by lia. reflexivity.
Qed.

(** X1: [mem_put_le16] inside the buffer stores the low 16 bits of the
    value, little-endian, at its two bytes, keeps the length of the buffer
    and leaves every other byte as it was. *)
Theorem mem_put_le16_stores (mem : list Z) (off : nat) (val : Z) :
  (off + 2 <= length mem)%nat ->
  le_read (mem_put_le16 mem off val) off 2 = val mod 2 ^ 16
  /\ length (mem_put_le16 mem off val) = length mem
  /\ forall j, (j < off \/ off + 2 <= j)%nat ->
               mem_put_le16 mem off val !! j = mem !! j.
Proof.
  intros Hlen. split; [|split].
  - rewrite le_read_mem_put_le16 by exact Hlen.
    unfold to_uint, wrap_unsigned.
    change (2 ^ 32) with (2 ^ 16 * 2 ^ 16).
    rewrite Z.rem_mul_r by lia.
    rewrite Z.mul_comm, Z.mod_add by lia. apply Z.mod_mod. lia.
  - apply mem_put_le16_length.
  - intros j Hj. apply mem_put_le16_other. exact Hj.
Qed.

Lemma mem_put_le16_stores_witness :
  le_read (mem_put_le16 [9; 9; 9; 9; 9] 1 0x12345) 1 2 = 0x12345 mod 2 ^ 16
  /\ length (mem_put_le16 [9; 9; 9; 9; 9] 1 0x12345) = 5%nat
  /\ forall j, (j < 1 \/ 1 + 2 <= j)%nat ->
               mem_put_le16 [9; 9; 9; 9; 9] 1 0x12345 !! j
               = [9; 9; 9; 9; 9] !! j.
Proof.
  apply (mem_put_le16_stores [9; 9; 9; 9; 9] 1 0x12345).
  simpl. lia.
Defined.

(** X2: [mem_put_le32] inside the buffer stores the value modulo [2 ^ 32],
    little-endian, at its four bytes, keeps the length of the buffer and
    leaves every other byte as it was. *)
Theorem mem_put_le32_stores (mem : list Z) (off : nat) (val : Z) :
  (off + 4 <= length mem)%nat ->
  le_read (mem_put_le32 mem off val) off 4 = val mod 2 ^ 32
  /\ length (mem_put_le32 mem off val) = length mem
  /\ forall j, (j < off \/ off + 4 <= j)%nat ->
               mem_put_le32 mem off val !! j = mem !! j.
Proof.
  intros Hlen. split; [|split].
  - rewrite le_read_mem_put_le32 by exact Hlen. reflexivity.
  - apply mem_put_le32_length.
  - intros j Hj. apply mem_put_le32_other. exact Hj.
Qed.

Lemma mem_put_le32_stores_witness :
  le_read (mem_put_le32 [9; 9; 9; 9; 9; 9] 1 (-1)) 1 4 = (-1) mod 2 ^ 32
  /\ length (mem_put_le32 [9; 9; 9; 9; 9; 9] 1 (-1)) = 6%nat
  /\ forall j, (j < 1 \/ 1 + 4 <= j)%nat ->
               mem_put_le32 [9; 9; 9; 9; 9; 9] 1 (-1) !! j
               = [9; 9; 9; 9; 9; 9] !! j.
Proof.
  apply (mem_put_le32_stores [9; 9; 9; 9; 9; 9] 1 (-1)).
  simpl. lia.
Defined.

(** ** [write_ivf_frame_header] *)

Lemma pts_halves (pts : Z) :
  to_uint (Z.land pts 0xFFFFFFFF) + 2 ^ 32 * to_uint (Z.shiftr pts 32)
  = pts mod 2 ^ 64.
Proof.
  change 0xFFFFFFFF with (Z.ones 32).
  rewrite Z.land_ones by lia. rewrite Z.shiftr_div_pow2 by lia.
  unfold to_uint, wrap_unsigned. rewrite Z.mod_mod by lia.
  change (2 ^ 64) with (2 ^ 32 * 2 ^ 32).
  rewrite Z.rem_mul_r by lia. reflexivity.
Qed.

(** X3: for a frame packet and a header buffer of at least 12 bytes,
    [write_ivf_frame_header] stores the payload size modulo [2 ^ 32] at
    offset 0 and the 64-bit time stamp as its low half at offset 4 and its
    high half at offset 8, keeps the length of the buffer and leaves the
    bytes from offset 12 on as they were.  For a packet of any other kind
    the buffer is left as it is. *)
Theorem write_ivf_frame_header_fields (pkt : vpx_codec_cx_pkt_t)
    (header : list Z) :
  (kind pkt = VPX_CODEC_CX_FRAME_PKT -> (12 <= length header)%nat ->
   le_read (write_ivf_frame_header pkt header) 0 4
   = frame_sz (data_frame pkt) mod 2 ^ 32
   /\ le_read (write_ivf_frame_header pkt header) 4 4
      + 2 ^ 32 * le_read (write_ivf_frame_header pkt header) 8 4
      = frame_pts (data_frame pkt) mod 2 ^ 64
   /\ length (write_ivf_frame_header pkt header) = length header
   /\ forall j, (12 <= j)%nat ->
                write_ivf_frame_header pkt header !! j = header !! j)
  /\ (kind pkt <> VPX_CODEC_CX_FRAME_PKT ->
      write_ivf_frame_header pkt header = header).
Proof.
  unfold write_ivf_frame_header.
  destruct (decide (kind pkt <> VPX_CODEC_CX_FRAME_PKT)) as [Hother | Hframe].
  - split; [intros Hk; contradiction | reflexivity].
  - split; [|intros Hk; contradiction].
    intros _ Hlen.
    set (h1 := mem_put_le32 header 0 (frame_sz (data_frame pkt))).
    set (h2 := mem_put_le32 h1 4
                 (Z.land (frame_pts (data_frame pkt)) 0xFFFFFFFF)).
    set (h3 := mem_put_le32 h2 8 (Z.shiftr (frame_pts (data_frame pkt)) 32)).
    assert (Hl1 : length h1 = length header) by apply mem_put_le32_length.
    assert (Hl2 : length h2 = length header).
    { unfold h2. rewrite mem_put_le32_length. exact Hl1. }
    assert (Hl3 : length h3 = length header).
    { unfold h3. rewrite mem_put_le32_length. exact Hl2. }
    assert (Hsz : le_read h3 0 4 = to_uint (frame_sz (data_frame pkt))).
    { rewrite (le_read_other h1 h3).
      - apply le_read_mem_put_le32. lia.
      - congruence.
      - intros j Hj. unfold h3, h2.
        rewrite !mem_put_le32_other by lia. reflexivity. }
    assert (Hlo : le_read h3 4 4
                  = to_uint (Z.land (frame_pts (data_frame pkt)) 0xFFFFFFFF)).
    { rewrite (le_read_other h2 h3).
      - apply le_read_mem_put_le32. lia.
      - congruence.
      - intros j Hj. unfold h3.
        rewrite mem_put_le32_other by lia. reflexivity. }
    assert (Hhi : le_read h3 8 4
                  = to_uint (Z.shiftr (frame_pts (data_frame pkt)) 32)).
    { apply le_read_mem_put_le32. lia. }
    split; [exact Hsz|]. split; [rewrite Hlo, Hhi; apply pts_halves|].
    split; [exact Hl3|].
    intros j Hj. unfold h3, h2, h1.
    rewrite !mem_put_le32_other by lia. reflexivity.
Qed.

Lemma write_ivf_frame_header_fields_witness :
  le_read (write_ivf_frame_header (Toy.frame_packet 0x100000002 0)
             (replicate 12 0)) 0 4
  = 3 mod 2 ^ 32
  /\ le_read (write_ivf_frame_header (Toy.frame_packet 0x100000002 0)
                (replicate 12 0)) 4 4
     + 2 ^ 32 * le_read (write_ivf_frame_header
                           (Toy.frame_packet 0x100000002 0)
                           (replicate 12 0)) 8 4
     = 0x100000002 mod 2 ^ 64
  /\ length (write_ivf_frame_header (Toy.frame_packet 0x100000002 0)
               (replicate 12 0)) = 12%nat
  /\ forall j, (12 <= j)%nat ->
               write_ivf_frame_header (Toy.frame_packet 0x100000002 0)
                 (replicate 12 0) !! j
               = replicate 12 0 !! j.
Proof.
  apply (proj1 (write_ivf_frame_header_fields
                  (Toy.frame_packet 0x100000002 0) (replicate 12 0))).
  - reflexivity.
  - simpl. lia.
Defined.

(** ** [write_ivf_file_header], further *)

(** X4: in the two pass modes that write, for every configuration whose
    width and height are below [2 ^ 16] and whose time base and frame count
    are in the [unsigned int] range, the 32 bytes appended to the file read
    back as the magic "DKIF", version 0, header size 32, the codec tag, and
    the same width, height, rate (time base denominator), scale (numerator)
    and frame count. *)
Theorem ivf_file_header_in_range_round_trip (outfile : list Z)
    (c : vpx_codec_enc_cfg_t) (n : Z) :
  g_pass c = VPX_RC_ONE_PASS \/ g_pass c = VPX_RC_LAST_PASS ->
  0 <= g_w c < 2 ^ 16 -> 0 <= g_h c < 2 ^ 16 ->
  0 <= den (g_timebase c) <= UINT_MAX ->
  0 <= num (g_timebase c) <= UINT_MAX ->
  0 <= n <= UINT_MAX ->
  spec_parse_ivf_file_header
    (drop (length outfile) (write_ivf_file_header outfile c n))
  = Some {| ivf_magic := [char_code "D"; char_code "K";
                          char_code "I"; char_code "F"];
            ivf_version := 0;
            ivf_header_size := 32;
            ivf_fourcc := fourcc;
            ivf_width := g_w c;
            ivf_height := g_h c;
            ivf_rate := den (g_timebase c);
            ivf_scale := num (g_timebase c);
            ivf_frame_count := n;
            ivf_reserved := 0 |}.
Proof.
  intros Hpass Hw Hh Hden Hnum Hn.
  rewrite (ivf_file_header_read_back outfile c n Hpass).
  rewrite !to_uint_small by (unfold UINT_MAX in *; lia).
  rewrite !Z.mod_small by lia. reflexivity.
Qed.

Lemma ivf_file_header_in_range_round_trip_witness :
  spec_parse_ivf_file_header
    (drop (length [7; 7])
       (write_ivf_file_header [7; 7]
          {| g_w := 640; g_h := 480; g_timebase := {| num := 1001; den := 30000 |};
             g_pass := VPX_RC_LAST_PASS; rc_target_bitrate := 1024 |} 250))
  = Some {| ivf_magic := [char_code "D"; char_code "K";
                          char_code "I"; char_code "F"];
            ivf_version := 0;
            ivf_header_size := 32;
            ivf_fourcc := fourcc;
            ivf_width := 640;
            ivf_height := 480;
            ivf_rate := 30000;
            ivf_scale := 1001;
            ivf_frame_count := 250;
            ivf_reserved := 0 |}.
Proof.
  apply (ivf_file_header_in_range_round_trip [7; 7]
           {| g_w := 640; g_h := 480;
              g_timebase := {| num := 1001; den := 30000 |};
              g_pass := VPX_RC_LAST_PASS; rc_target_bitrate := 1024 |} 250).
  - right. reflexivity.
  - simpl. lia.
  - simpl. lia.
  - unfold UINT_MAX. simpl. lia.
  - unfold UINT_MAX. simpl. lia.
  - unfold UINT_MAX. lia.
Defined.

(** X5: the bytes [write_ivf_file_header] appends do not depend on what
    its local buffer held before the stores: the stores cover all 32 bytes,
    so no indeterminate byte reaches the file, and the bytes already in the
    file stay in front. *)
Theorem write_ivf_file_header_initialised (outfile header : list Z)
    (c : vpx_codec_enc_cfg_t) (n : Z) :
  length header = 32%nat ->
  g_pass c = VPX_RC_ONE_PASS \/ g_pass c = VPX_RC_LAST_PASS ->
  write_ivf_file_header outfile c n
  = outfile ++ fill_ivf_file_header header c n.
Proof.
  intros Hlen Hpass. unfold write_ivf_file_header, fwrite.
  destruct (decide _) as [[H1 H2] | _]; [destruct Hpass; contradiction|].
  f_equal.
  rewrite (fill_ivf_file_header_bytes header c n Hlen).
  rewrite (fill_ivf_file_header_bytes (replicate 32 0) c n eq_refl).
  reflexivity.
Qed.

Lemma write_ivf_file_header_initialised_witness :
  write_ivf_file_header [1] Toy.default_cfg 5
  = [1] ++ fill_ivf_file_header (replicate 32 0xAA) Toy.default_cfg 5.
Proof.
  apply (write_ivf_file_header_initialised [1] (replicate 32 0xAA)
           Toy.default_cfg 5).
  - reflexivity.
  - left. reflexivity.
Defined.

(** ** [die] and [die_codec] *)

Lemma last_char_None (f : string) : last_char f = None <-> f = EmptyString.
Proof.
  split.
  - destruct f as [|c rest]; [reflexivity|].
    revert c. induction rest as [|c' rest IH]; intros c H.
    + discriminate H.
    + cbn in H. cbn in IH. specialize (IH c' H). discriminate IH.
  - intros ->. reflexivity.
Qed.

(** X6: [die] never returns.  With a format that is not empty it prints
    the message, adds a line end exactly when the format does not end with
    one, and exits with [EXIT_FAILURE]; the static variables and the
    library are not touched.  With the empty format it reads the byte
    before the string. *)
Theorem die_exits (E : Engine) (A : Type) (f : string)
    (a : list printf_arg) (s : world E) :
  (f <> EmptyString ->
   exists out,
     die E (A := A) f a s
     = Exited EXIT_FAILURE
         (with_stdout (stdout s ++ {| format := f; args := a |} :: out) s)
     /\ (last_char f = Some "010"%char -> out = [])
     /\ (last_char f <> Some "010"%char ->
         out = [{| format := nl; args := [] |}]))
  /\ (f = EmptyString ->
      die E (A := A) f a s
      = Undefined (with_stdout (stdout s ++ [{| format := f; args := a |}]) s))
  /\ (forall v s', die E (A := A) f a s <> Returned v s').
Proof.
  assert (Hcases :
    (f = EmptyString
     /\ die E (A := A) f a s
        = Undefined
            (with_stdout (stdout s ++ [{| format := f; args := a |}]) s))
    \/ (f <> EmptyString /\ exists out,
          die E (A := A) f a s
          = Exited EXIT_FAILURE
              (with_stdout (stdout s ++ {| format := f; args := a |} :: out) s)
          /\ (last_char f = Some "010"%char -> out = [])
          /\ (last_char f <> Some "010"%char ->
              out = [{| format := nl; args := [] |}]))).
  { destruct (last_char f) as [c|] eqn:Hlast.
    - right. split.
      { intros ->. discriminate Hlast. }
      unfold die. step_session. rewrite Hlast.
      destruct (Ascii.eqb c "010"%char) eqn:Heq.
      + apply Ascii.eqb_eq in Heq. subst c. step_session.
        exists []. split; [reflexivity|]. split; [reflexivity|].
        intros Hcontra. contradiction.
      + apply Ascii.eqb_neq in Heq. cbn [negb]. step_session.
        exists [{| format := nl; args := [] |}].
        split; [rewrite <- app_assoc; reflexivity|].
        split; [|reflexivity].
        intros Hnl. injection Hnl as ->. contradiction.
    - left. split; [apply last_char_None; exact Hlast|].
      unfold die. step_session. rewrite Hlast. reflexivity. }
  destruct Hcases as [[Hemp Hrun] | [Hne (out & Hrun & Hout)]].
  - split; [intros Hcontra; contradiction|].
    split; [intros _; exact Hrun|].
    intros v s' Hret. congruence.
  - split; [intros _; exists out; auto|].
    split; [intros Hcontra; contradiction|].
    intros v s' Hret. congruence.
Qed.

Lemma die_exits_witness :
  exists out,
    die Toy.one_packet (A := unit) "Invalid resolution: %ldx%ld"
      [Int_arg 3; Int_arg 5] (initial_world _ Toy.zero_cfg)
    = Exited EXIT_FAILURE
        (with_stdout
           (stdout (initial_world Toy.one_packet Toy.zero_cfg)
            ++ {| format := "Invalid resolution: %ldx%ld";
                  args := [Int_arg 3; Int_arg 5] |} :: out)
           (initial_world _ Toy.zero_cfg))
    /\ (last_char "Invalid resolution: %ldx%ld" = Some "010"%char -> out = [])
    /\ (last_char "Invalid resolution: %ldx%ld" <> Some "010"%char ->
        out = [{| format := nl; args := [] |}]).
Proof.
  apply (proj1 (die_exits Toy.one_packet unit "Invalid resolution: %ldx%ld"
                  [Int_arg 3; Int_arg 5] (initial_world _ Toy.zero_cfg))).
  discriminate.
Defined.

(** [die_codec] in closed form: the message with the library's error
    string, the detail line when the library has one, then the exit. *)
Lemma die_codec_exits (E : Engine) (A : Type) (msg : string)
    (s : world E) :
  die_codec E (A := A) msg s
  = Exited EXIT_FAILURE
      (with_stdout
         (stdout s
          ++ {| format := ("%s: %s" ++ nl)%string;
                args := [Str_arg msg;
                         Str_arg (vpx_codec_error E (codec s))] |}
             :: match vpx_codec_error_detail E (codec s) with
                | Some d => [{| format := ("    %s" ++ nl)%string;
                                args := [Str_arg d] |}]
                | None => []
                end)
         s).
Proof.
  unfold die_codec. step_session.
  destruct (vpx_codec_error_detail E (codec s)); step_session.
  - rewrite <- app_assoc. reflexivity.
  - reflexivity.
Qed.

(** ** The paths of [setup_encoder] *)

Ltac setup_valid_start Hv Hdef :=
  apply resolution_check_valid in Hv;
  unfold setup_encoder; rewrite Hv; step_session;
  rewrite Hdef; step_session.

(** X7: when the resolution is valid and the library fails to give its
    default configuration, [setup_encoder] returns [EXIT_FAILURE] to its
    caller (it does not exit) after printing the library's error text; the
    codec context is untouched, [vpx_codec_enc_init] is never called, and
    [res] holds the error. *)
Theorem setup_encoder_config_failure (E : Engine) (width height : Z)
    (s : world E) (r : vpx_codec_err_t) (c : vpx_codec_enc_cfg_t) :
  valid_resolution width height ->
  vpx_codec_enc_config_default E (cfg s) 0 = (r, c) -> r <> 0 ->
  exists s',
    setup_encoder E width height s = Returned EXIT_FAILURE s'
    /\ codec s' = codec s /\ cfg s' = c /\ res s' = r
    /\ engine_log s' = engine_log s ++ [Call_enc_config_default 0]
    /\ stdout s'
       = stdout s
         ++ [using_line E;
             {| format := ("Failed to get config: %s" ++ nl)%string;
                args := [Str_arg (vpx_codec_err_to_string E r)] |}]
    /\ frame_cnt s' = frame_cnt s /\ frame_avail s' = frame_avail s.
Proof.
  intros Hv Hdef Hr. setup_valid_start Hv Hdef.
  destruct (decide (r <> 0)) as [_ | Hcontra]; [|contradiction].
  step_session. eexists. split; [reflexivity|]. cbn.
  rewrite <- app_assoc. repeat split; reflexivity.
Qed.

Lemma setup_encoder_config_failure_witness :
  exists s',
    setup_encoder ToyFaults.no_config 64 64 (initial_world _ Toy.zero_cfg)
    = Returned EXIT_FAILURE s'
    /\ codec s' = codec (initial_world ToyFaults.no_config Toy.zero_cfg)
    /\ cfg s' = Toy.zero_cfg /\ res s' = 8
    /\ engine_log s'
       = engine_log (initial_world ToyFaults.no_config Toy.zero_cfg)
         ++ [Call_enc_config_default 0]
    /\ stdout s'
       = stdout (initial_world ToyFaults.no_config Toy.zero_cfg)
         ++ [using_line ToyFaults.no_config;
             {| format := ("Failed to get config: %s" ++ nl)%string;
                args := [Str_arg
                           (vpx_codec_err_to_string ToyFaults.no_config 8)] |}]
    /\ frame_cnt s'
       = frame_cnt (initial_world ToyFaults.no_config Toy.zero_cfg)
    /\ frame_avail s'
       = frame_avail (initial_world ToyFaults.no_config Toy.zero_cfg).
Proof.
  apply (setup_encoder_config_failure ToyFaults.no_config 64 64
           (initial_world _ Toy.zero_cfg) 8 Toy.zero_cfg).
  - unfold valid_resolution. repeat split; try lia; reflexivity.
  - reflexivity.
  - discriminate.
Defined.

(** X8: when the resolution is valid, the library gives defaults with
    non-zero dimensions and accepts the initialisation, [setup_encoder]
    returns [EXIT_SUCCESS]; the library was initialised with exactly the
    configuration left in [cfg] (defaults with bit rate, width and height
    replaced, time base and pass mode as given), [frame_avail] is 1 and
    [got_data] 0, and the only output is the "Using" line. *)
Theorem setup_encoder_success (E : Engine) (width height : Z)
    (s : world E) (c : vpx_codec_enc_cfg_t) (ctx : vpx_codec_ctx_t E) :
  valid_resolution width height ->
  vpx_codec_enc_config_default E (cfg s) 0 = (0, c) ->
  g_w c <> 0 -> g_h c <> 0 ->
  vpx_codec_enc_init E (codec s) (session_cfg width height c) 0 = (0, ctx) ->
  exists s',
    setup_encoder E width height s = Returned EXIT_SUCCESS s'
    /\ codec s' = ctx /\ cfg s' = session_cfg width height c
    /\ g_timebase (cfg s') = g_timebase c /\ g_pass (cfg s') = g_pass c
    /\ g_w (cfg s') = width mod 2 ^ 32 /\ g_h (cfg s') = height mod 2 ^ 32
    /\ res s' = 0 /\ frame_avail s' = 1 /\ got_data s' = 0
    /\ engine_log s'
       = engine_log s ++ [Call_enc_config_default 0;
                          Call_enc_init (session_cfg width height c) 0]
    /\ stdout s' = stdout s ++ [using_line E].
Proof.
  intros Hv Hdef Hw Hh Hinit. setup_valid_start Hv Hdef.
  destruct (decide (0 <> 0)) as [Hcontra | _]; [contradiction|].
  destruct (decide (g_w c = 0 \/ g_h c = 0)) as [[Hz | Hz] | _];
    [contradiction | contradiction |].
  step_session. fold (session_cfg width height c). rewrite Hinit.
  step_session.
  destruct (decide (0 <> 0)) as [Hcontra | _]; [contradiction|].
  step_session. eexists. split; [reflexivity|]. cbn.
  rewrite <- app_assoc. repeat split; reflexivity.
Qed.

Lemma setup_encoder_success_witness :
  exists s',
    setup_encoder Toy.one_packet 64 64 (initial_world _ Toy.zero_cfg)
    = Returned EXIT_SUCCESS s'
    /\ codec s' = {| Toy.live := true; Toy.pending := [] |}
    /\ cfg s' = session_cfg 64 64 Toy.default_cfg
    /\ g_timebase (cfg s') = g_timebase Toy.default_cfg
    /\ g_pass (cfg s') = g_pass Toy.default_cfg
    /\ g_w (cfg s') = 64 mod 2 ^ 32 /\ g_h (cfg s') = 64 mod 2 ^ 32
    /\ res s' = 0 /\ frame_avail s' = 1 /\ got_data s' = 0
    /\ engine_log s'
       = engine_log (initial_world Toy.one_packet Toy.zero_cfg)
         ++ [Call_enc_config_default 0;
             Call_enc_init (session_cfg 64 64 Toy.default_cfg) 0]
    /\ stdout s'
       = stdout (initial_world Toy.one_packet Toy.zero_cfg)
         ++ [using_line Toy.one_packet].
Proof.
  apply (setup_encoder_success Toy.one_packet 64 64
           (initial_world _ Toy.zero_cfg) Toy.default_cfg
           {| Toy.live := true; Toy.pending := [] |}).
  - unfold valid_resolution. repeat split; try lia; reflexivity.
  - reflexivity.
  - discriminate.
  - discriminate.
  - reflexivity.
Defined.

(** X9: when the library rejects the initialisation, [setup_encoder] ends
    the process with [EXIT_FAILURE] after the "Failed to initialize
    encoder" lines of [die_codec]; by then [cfg] already holds the session
    configuration, and [frame_avail] and [got_data] have not been set. *)
Theorem setup_encoder_init_failure (E : Engine) (width height : Z)
    (s : world E) (c : vpx_codec_enc_cfg_t) (r : vpx_codec_err_t)
    (ctx : vpx_codec_ctx_t E) :
  valid_resolution width height ->
  vpx_codec_enc_config_default E (cfg s) 0 = (0, c) ->
  g_w c <> 0 -> g_h c <> 0 ->
  vpx_codec_enc_init E (codec s) (session_cfg width height c) 0 = (r, ctx) ->
  r <> 0 ->
  exists s',
    setup_encoder E width height s = Exited EXIT_FAILURE s'
    /\ codec s' = ctx /\ cfg s' = session_cfg width height c
    /\ frame_avail s' = frame_avail s /\ got_data s' = got_data s
    /\ engine_log s'
       = engine_log s ++ [Call_enc_config_default 0;
                          Call_enc_init (session_cfg width height c) 0]
    /\ stdout s'
       = stdout s ++ using_line E
                     :: die_codec_lines E "Failed to initialize encoder" ctx.
Proof.
  intros Hv Hdef Hw Hh Hinit Hr. setup_valid_start Hv Hdef.
  destruct (decide (0 <> 0)) as [Hcontra | _]; [contradiction|].
  destruct (decide (g_w c = 0 \/ g_h c = 0)) as [[Hz | Hz] | _];
    [contradiction | contradiction |].
  step_session. fold (session_cfg width height c). rewrite Hinit.
  step_session.
  destruct (decide (r <> 0)) as [_ | Hcontra]; [|contradiction].
  unfold die_codec_lines. step_session.
  destruct (vpx_codec_error_detail E ctx); step_session;
    eexists; (split; [reflexivity|]); cbn;
    rewrite <- !app_assoc; repeat split; reflexivity.
Qed.

Lemma setup_encoder_init_failure_witness :
  exists s',
    setup_encoder ToyFaults.no_init 64 64 (initial_world _ Toy.zero_cfg)
    = Exited EXIT_FAILURE s'
    /\ codec s' = codec_zero ToyFaults.no_init
    /\ cfg s' = session_cfg 64 64 Toy.default_cfg
    /\ frame_avail s'
       = frame_avail (initial_world ToyFaults.no_init Toy.zero_cfg)
    /\ got_data s' = got_data (initial_world ToyFaults.no_init Toy.zero_cfg)
    /\ engine_log s'
       = engine_log (initial_world ToyFaults.no_init Toy.zero_cfg)
         ++ [Call_enc_config_default 0;
             Call_enc_init (session_cfg 64 64 Toy.default_cfg) 0]
    /\ stdout s'
       = stdout (initial_world ToyFaults.no_init Toy.zero_cfg)
         ++ using_line ToyFaults.no_init
            :: die_codec_lines ToyFaults.no_init
                 "Failed to initialize encoder"
                 (codec_zero ToyFaults.no_init).
Proof.
  apply (setup_encoder_init_failure ToyFaults.no_init 64 64
           (initial_world _ Toy.zero_cfg) Toy.default_cfg 8
           (codec_zero ToyFaults.no_init)).
  - unfold valid_resolution. repeat split; try lia; reflexivity.
  - reflexivity.
  - discriminate.
  - discriminate.
  - reflexivity.
  - discriminate.
Defined.

(** X10: when the defaults the library gives have a zero width or height,
    [setup_encoder] divides by zero while scaling the bit rate: the call
    has no defined outcome, and the library is never initialised. *)
Theorem setup_encoder_zero_defaults (E : Engine) (width height : Z)
    (s : world E) (c : vpx_codec_enc_cfg_t) :
  valid_resolution width height ->
  vpx_codec_enc_config_default E (cfg s) 0 = (0, c) ->
  g_w c = 0 \/ g_h c = 0 ->
  exists s',
    setup_encoder E width height s = Undefined s'
    /\ codec s' = codec s
    /\ engine_log s' = engine_log s ++ [Call_enc_config_default 0].
Proof.
  intros Hv Hdef Hzero. setup_valid_start Hv Hdef.
  destruct (decide (0 <> 0)) as [Hcontra | _]; [contradiction|].
  destruct (decide (g_w c = 0 \/ g_h c = 0)) as [_ | Hcontra];
    [|contradiction].
  step_session. eexists. split; [reflexivity|]. cbn. auto.
Qed.

Lemma setup_encoder_zero_defaults_witness :
  exists s',
    setup_encoder ToyFaults.zero_defaults 64 64 (initial_world _ Toy.zero_cfg)
    = Undefined s'
    /\ codec s' = codec (initial_world ToyFaults.zero_defaults Toy.zero_cfg)
    /\ engine_log s'
       = engine_log (initial_world ToyFaults.zero_defaults Toy.zero_cfg)
         ++ [Call_enc_config_default 0].
Proof.
  apply (setup_encoder_zero_defaults ToyFaults.zero_defaults 64 64
           (initial_world _ Toy.zero_cfg) Toy.zero_cfg).
  - unfold valid_resolution. repeat split; try lia; reflexivity.
  - reflexivity.
  - left. reflexivity.
Defined.

(** [setup_encoder] never writes [frame_cnt] or [flags], whatever way it
    ends. *)
Lemma setup_encoder_frame_cnt (E : Engine) (width height : Z) (s : world E) :
  frame_cnt (outcome_world (setup_encoder E width height s)) = frame_cnt s
  /\ flags (outcome_world (setup_encoder E width height s)) = flags s.
Proof.
  unfold setup_encoder.
  destruct ((width <? 16) || negb (Z.rem width 2 =? 0)
            || (height <? 16) || negb (Z.rem height 2 =? 0)) eqn:Hrej.
  - rewrite (bind_Exited _ _ s EXIT_FAILURE
               (invalid_resolution_exit width height s)
               (die_invalid_resolution E width height s)).
    split; reflexivity.
  - step_session.
    destruct (vpx_codec_enc_config_default E (cfg s) 0) as [r c].
    step_session.
    destruct (decide (r <> 0)); [step_session; split; reflexivity|].
    destruct (decide (g_w c = 0 \/ g_h c = 0));
      [step_session; split; reflexivity|].
    step_session.
    destruct (vpx_codec_enc_init E _ _ 0) as [r' ctx].
    step_session.
    destruct (decide (r' <> 0)); step_session; [|split; reflexivity].
    destruct (vpx_codec_error_detail E ctx); step_session; split; reflexivity.
Qed.

(** X11: [setup_encoder] never resets the frame counter: whatever the
    resolution, the library's answers and the way the call ends,
    [frame_cnt] and [flags] are as before the call, so a session set up
    after an earlier one goes on counting from the earlier count. *)
Theorem setup_encoder_keeps_counter (E : Engine) (width height : Z)
    (s : world E) :
  frame_cnt (outcome_world (setup_encoder E width height s)) = frame_cnt s
  /\ flags (outcome_world (setup_encoder E width height s)) = flags s.
Proof. apply setup_encoder_frame_cnt. Qed.

(** ** [encode_frame]: output, errors and time stamps *)

Lemma land_1_odd (z : Z) : (Z.land z 1 =? 0) = negb (Z.odd z).
Proof.
  change 1 with (Z.ones 1). rewrite Z.land_ones by lia.
  change (2 ^ 1) with 2. rewrite Zmod_odd.
  destruct (Z.odd z); reflexivity.
Qed.

(** The world a returning call leaves, field by field. *)
Lemma encode_frame_first_world (E : Engine) (raw : vpx_image_t)
    (s : world E) (ctx : vpx_codec_ctx_t E) (pkt : vpx_codec_cx_pkt_t)
    (rest : list vpx_codec_cx_pkt_t) :
  engine_encode E raw s = (0, ctx) -> cx_data E ctx = pkt :: rest ->
  exists s',
    encode_frame E raw s = Returned pkt s'
    /\ cfg s' = cfg s /\ flags s' = flags s /\ res s' = res s
    /\ frame_avail s' = 1 /\ got_data s' = 1
    /\ stdout s'
       = stdout s
         ++ (if decide (kind pkt = VPX_CODEC_CX_FRAME_PKT) then []
             else [mark unknown_packet_warning])
         ++ [mark (if bool_decide (kind pkt = VPX_CODEC_CX_FRAME_PKT)
                      && Z.odd (frame_flags (data_frame pkt))
                   then "K" else ".")].
Proof.
  unfold engine_encode. intros Henc Hdata.
  unfold encode_frame. step_session.
  destruct (decide (1 <> 0)) as [_ | Hcontra]; [|exfalso; apply Hcontra; lia].
  rewrite Henc. step_session.
  destruct (decide (0 <> 0)) as [Hcontra | _]; [contradiction|].
  step_session. unfold vpx_codec_get_cx_data. rewrite Hdata.
  step_session. cbn [lookup list_lookup]. step_session.
  unfold VPX_FRAME_IS_KEY. rewrite land_1_odd, negb_involutive.
  destruct (kind pkt) eqn:Hkind; step_session;
    eexists; (split; [reflexivity|]); cbn;
    rewrite <- ?app_assoc; repeat split; reflexivity.
Qed.

Lemma encode_frame_Returned_world (E : Engine) (raw : vpx_image_t)
    (s s' : world E) (pkt : vpx_codec_cx_pkt_t) :
  encode_frame E raw s = Returned pkt s' ->
  cfg s' = cfg s /\ flags s' = flags s /\ res s' = res s
  /\ frame_avail s' = 1 /\ got_data s' = 1
  /\ stdout s'
     = stdout s
       ++ (if decide (kind pkt = VPX_CODEC_CX_FRAME_PKT) then []
           else [mark unknown_packet_warning])
       ++ [mark (if bool_decide (kind pkt = VPX_CODEC_CX_FRAME_PKT)
                    && Z.odd (frame_flags (data_frame pkt))
                 then "K" else ".")].
Proof.
  intros Hret.
  destruct (encode_frame_Returned_inv E raw s s' pkt Hret)
    as (rest & Henc & Hdata & _).
  destruct (encode_frame_first_world E raw s (codec s') pkt rest Henc Hdata)
    as (s1 & Hrun & Hfacts).
  rewrite Hrun in Hret. injection Hret as <-. exact Hfacts.
Qed.

(** X12: a returning [encode_frame] prints one progress mark as its last
    output: "K" for a frame packet whose flags have the key-frame bit (bit
    0) set, "." for any other frame packet.  For a packet of another kind
    it first prints the "different kind of packet" warning and then ".",
    without reading the frame flags; the counter still advances. *)
Theorem encode_frame_progress_mark (E : Engine) (raw : vpx_image_t)
    (s s' : world E) (pkt : vpx_codec_cx_pkt_t) :
  encode_frame E raw s = Returned pkt s' ->
  (kind pkt = VPX_CODEC_CX_FRAME_PKT ->
   Z.odd (frame_flags (data_frame pkt)) = true ->
   stdout s' = stdout s ++ [mark "K"])
  /\ (kind pkt = VPX_CODEC_CX_FRAME_PKT ->
      Z.odd (frame_flags (data_frame pkt)) = false ->
      stdout s' = stdout s ++ [mark "."])
  /\ (kind pkt <> VPX_CODEC_CX_FRAME_PKT ->
      stdout s' = stdout s ++ [mark unknown_packet_warning; mark "."])
  /\ frame_cnt s' = to_int (frame_cnt s + 1).
Proof.
  intros Hret.
  destruct (encode_frame_Returned_world E raw s s' pkt Hret)
    as (_ & _ & _ & _ & _ & Hout).
  destruct (encode_frame_Returned_inv E raw s s' pkt Hret)
    as (_ & _ & _ & Hcnt & _).
  rewrite Hout. split; [|split; [|split; [|exact Hcnt]]].
  - intros Hk Hodd. rewrite Hk, Hodd.
    destruct (decide _) as [_ | Hcontra]; [|contradiction]. reflexivity.
  - intros Hk Hodd. rewrite Hk, Hodd.
    destruct (decide _) as [_ | Hcontra]; [|contradiction]. reflexivity.
  - intros Hk. destruct (decide _) as [Hcontra | _]; [contradiction|].
    rewrite bool_decide_eq_false_2 by exact Hk. reflexivity.
Qed.

Lemma encode_frame_progress_mark_witness :
  stdout (outcome_world
            (encode_frame Toy.one_packet (Toy.image 16 16)
               (Toy.ready Toy.one_packet)))
  = stdout (Toy.ready Toy.one_packet) ++ [mark "K"].
Proof.
  assert (Hrun : encode_frame Toy.one_packet (Toy.image 16 16)
                   (Toy.ready Toy.one_packet)
                 = Returned (Toy.frame_packet 0 1)
                     (outcome_world
                        (encode_frame Toy.one_packet (Toy.image 16 16)
                           (Toy.ready Toy.one_packet))))
    by (vm_compute; reflexivity).
  apply (proj1 (encode_frame_progress_mark Toy.one_packet (Toy.image 16 16)
                  (Toy.ready Toy.one_packet) _ _ Hrun)).
  - reflexivity.
  - reflexivity.
Defined.

(** X13: when the library reports an error for the frame, [encode_frame]
    ends the process with [EXIT_FAILURE] after the "Failed to encode
    frame" lines of [die_codec]; it has not asked for a packet, and the
    frame counter and [got_data] are as before the call. *)
Theorem encode_frame_engine_error (E : Engine) (raw : vpx_image_t)
    (s : world E) (r : vpx_codec_err_t) (ctx : vpx_codec_ctx_t E) :
  engine_encode E raw s = (r, ctx) -> r <> 0 ->
  exists s',
    encode_frame E raw s = Exited EXIT_FAILURE s'
    /\ codec s' = ctx /\ frame_cnt s' = frame_cnt s
    /\ got_data s' = got_data s /\ frame_avail s' = 1
    /\ engine_log s' = engine_log s ++ [encode_call raw s]
    /\ stdout s' = stdout s ++ die_codec_lines E "Failed to encode frame" ctx.
Proof.
  unfold engine_encode, encode_call. intros Henc Hr.
  unfold encode_frame. step_session.
  destruct (decide (1 <> 0)) as [_ | Hcontra]; [|exfalso; apply Hcontra; lia].
  rewrite Henc. step_session.
  destruct (decide (r <> 0)) as [_ | Hcontra]; [|contradiction].
  unfold die_codec_lines. step_session.
  destruct (vpx_codec_error_detail E ctx); step_session;
    eexists; (split; [reflexivity|]); cbn;
    rewrite <- ?app_assoc; repeat split; reflexivity.
Qed.

Lemma encode_frame_engine_error_witness :
  exists s',
    encode_frame ToyFaults.no_encode (Toy.image 64 64)
      (Toy.ready ToyFaults.no_encode)
    = Exited EXIT_FAILURE s'
    /\ codec s' = codec (Toy.ready ToyFaults.no_encode)
    /\ frame_cnt s' = frame_cnt (Toy.ready ToyFaults.no_encode)
    /\ got_data s' = got_data (Toy.ready ToyFaults.no_encode)
    /\ frame_avail s' = 1
    /\ engine_log s'
       = engine_log (Toy.ready ToyFaults.no_encode)
         ++ [encode_call (Toy.image 64 64) (Toy.ready ToyFaults.no_encode)]
    /\ stdout s'
       = stdout (Toy.ready ToyFaults.no_encode)
         ++ die_codec_lines ToyFaults.no_encode "Failed to encode frame"
              (codec (Toy.ready ToyFaults.no_encode)).
Proof.
  apply (encode_frame_engine_error ToyFaults.no_encode (Toy.image 64 64)
           (Toy.ready ToyFaults.no_encode) 1
           (codec (Toy.ready ToyFaults.no_encode))).
  - reflexivity.
  - discriminate.
Defined.

(** The library calls of a run of returning calls. *)
Lemma encode_frames_log (E : Engine) (raws : list vpx_image_t) :
  forall (s s' : world E) pkts,
    encode_frames E raws s = Returned pkts s' ->
    - 2 ^ 31 <= frame_cnt s ->
    frame_cnt s + Z.of_nat (length raws) <= INT_MAX ->
    engine_log s'
    = engine_log s ++ expected_calls raws (frame_cnt s) (flags s)
    /\ flags s' = flags s /\ cfg s' = cfg s
    /\ frame_cnt s' = frame_cnt s + Z.of_nat (length raws).
Proof.
  induction raws as [|raw rest IH]; intros s s' pkts Hrun Hlo Hhi.
  - cbn in Hrun. unfold ret in Hrun. injection Hrun as <- <-.
    cbn [expected_calls length]. rewrite app_nil_r, Z.add_0_r. auto.
  - cbn [encode_frames] in Hrun. unfold bind in Hrun.
    destruct (encode_frame E raw s) as [pkt s1| |] eqn:Hcall;
      try discriminate Hrun.
    destruct (encode_frames E rest s1) as [pkts1 s2| |] eqn:Hrest;
      try discriminate Hrun.
    unfold ret in Hrun. injection Hrun as <- <-.
    destruct (encode_frame_Returned_inv E raw s s1 pkt Hcall)
      as (_ & _ & _ & Hcnt & Hlog).
    destruct (encode_frame_Returned_world E raw s s1 pkt Hcall)
      as (Hcfg & Hfl & _).
    cbn [length] in Hhi.
    rewrite to_int_small in Hcnt by (unfold INT_MAX in *; lia).
    destruct (IH s1 s2 pkts1 Hrest) as (Hlog2 & Hfl2 & Hcfg2 & Hcnt2).
    { lia. }
    { lia. }
    rewrite Hlog2, Hlog, Hfl2, Hcfg2, Hcnt2, Hcnt, Hfl, Hcfg.
    cbn [expected_calls length]. unfold encode_call.
    rewrite <- app_assoc. cbn [app].
    repeat split; try reflexivity. lia.
Qed.

(** X14: over a run of [encode_frame] calls that all return, the library
    sees one submission and one packet request per frame, in order: every
    submission carries its frame (never the null flush), duration 1, the
    unchanged flags and the real-time deadline, and the time stamps are
    the consecutive counter values, as long as the counter stays in the
    [int] range.  The configuration is not touched. *)
Theorem encode_frames_time_stamps (E : Engine) (raws : list vpx_image_t)
    (s s' : world E) (pkts : list vpx_codec_cx_pkt_t) :
  encode_frames E raws s = Returned pkts s' ->
  - 2 ^ 31 <= frame_cnt s ->
  frame_cnt s + Z.of_nat (length raws) <= INT_MAX ->
  engine_log s' = engine_log s ++ expected_calls raws (frame_cnt s) (flags s)
  /\ flags s' = flags s /\ cfg s' = cfg s.
Proof.
  intros Hrun Hlo Hhi.
  destruct (encode_frames_log E raws s s' pkts Hrun Hlo Hhi)
    as (Hlog & Hfl & Hcfg & _).
  auto.
Qed.

Lemma encode_frames_time_stamps_witness :
  engine_log
    (outcome_world
       (encode_frames Toy.two_packets [Toy.image 16 16; Toy.image 16 16]
          (Toy.ready Toy.two_packets)))
  = engine_log (Toy.ready Toy.two_packets)
    ++ expected_calls [Toy.image 16 16; Toy.image 16 16]
         (frame_cnt (Toy.ready Toy.two_packets))
         (flags (Toy.ready Toy.two_packets))
  /\ flags (outcome_world
              (encode_frames Toy.two_packets [Toy.image 16 16; Toy.image 16 16]
                 (Toy.ready Toy.two_packets)))
     = flags (Toy.ready Toy.two_packets)
  /\ cfg (outcome_world
            (encode_frames Toy.two_packets [Toy.image 16 16; Toy.image 16 16]
               (Toy.ready Toy.two_packets)))
     = cfg (Toy.ready Toy.two_packets).
Proof.
  apply (encode_frames_time_stamps Toy.two_packets
           [Toy.image 16 16; Toy.image 16 16] (Toy.ready Toy.two_packets)
           (outcome_world
              (encode_frames Toy.two_packets
                 [Toy.image 16 16; Toy.image 16 16]
                 (Toy.ready Toy.two_packets)))
           [Toy.frame_packet 0 0; Toy.frame_packet 1 0]).
  - vm_compute. reflexivity.
  - vm_compute. discriminate.
  - vm_compute. discriminate.
Defined.

(** ** [finalise_encoder] and whole sessions *)

(** X15: when the library reports an error for the release,
    [finalise_encoder] ends the process with [EXIT_FAILURE]: the report
    line comes first, then the "Failed to destroy codec" lines of
    [die_codec]; the context is the one the library left, the release is
    asked once and not retried, and the frame counter is unchanged. *)
Theorem finalise_encoder_destroy_failure (E : Engine) (s : world E)
    (r : vpx_codec_err_t) (ctx : vpx_codec_ctx_t E) :
  vpx_codec_destroy E (codec s) = (r, ctx) -> r <> 0 ->
  exists s',
    finalise_encoder E s = Exited EXIT_FAILURE s'
    /\ codec s' = ctx /\ frame_cnt s' = frame_cnt s /\ cfg s' = cfg s
    /\ engine_log s' = engine_log s ++ [Call_destroy]
    /\ stdout s'
       = stdout s ++ processed_line (to_int (frame_cnt s - 1))
                     :: die_codec_lines E "Failed to destroy codec" ctx.
Proof.
  intros Hdestroy Hr. unfold finalise_encoder. step_session.
  rewrite Hdestroy. step_session.
  destruct (decide (r <> 0)) as [_ | Hcontra]; [|contradiction].
  unfold die_codec_lines, processed_line. step_session.
  destruct (vpx_codec_error_detail E ctx); step_session;
    eexists; (split; [reflexivity|]); cbn;
    rewrite <- ?app_assoc; repeat split; reflexivity.
Qed.

Lemma finalise_encoder_destroy_failure_witness :
  exists s',
    finalise_encoder Toy.one_packet (initial_world _ Toy.zero_cfg)
    = Exited EXIT_FAILURE s'
    /\ codec s' = codec_zero Toy.one_packet
    /\ frame_cnt s' = frame_cnt (initial_world Toy.one_packet Toy.zero_cfg)
    /\ cfg s' = cfg (initial_world Toy.one_packet Toy.zero_cfg)
    /\ engine_log s'
       = engine_log (initial_world Toy.one_packet Toy.zero_cfg)
         ++ [Call_destroy]
    /\ stdout s'
       = stdout (initial_world Toy.one_packet Toy.zero_cfg)
         ++ processed_line
              (to_int
                 (frame_cnt (initial_world Toy.one_packet Toy.zero_cfg) - 1))
            :: die_codec_lines Toy.one_packet "Failed to destroy codec"
                 (codec_zero Toy.one_packet).
Proof.
  apply (finalise_encoder_destroy_failure Toy.one_packet
           (initial_world _ Toy.zero_cfg) 1 (codec_zero Toy.one_packet)).
  - reflexivity.
  - discriminate.
Defined.

(** X16: a session that runs to its end (set up, one [encode_frame] per
    frame, finalise, all returning) returns [EXIT_SUCCESS], has advanced
    the frame counter by the number of frames from wherever it stood, and
    ends its output with the report of the counter less one; its last
    library call is the release.  So a first session of N frames reports
    N - 1, and a session after it goes on from the earlier count. *)
Theorem session_run_report (E : Engine) (width height : Z)
    (raws : list vpx_image_t) (s s' : world E) (v : Z) :
  session_run E width height raws s = Returned v s' ->
  0 <= frame_cnt s ->
  frame_cnt s + Z.of_nat (length raws) <= INT_MAX ->
  v = EXIT_SUCCESS
  /\ frame_cnt s' = frame_cnt s + Z.of_nat (length raws)
  /\ last (stdout s')
     = Some (processed_line (frame_cnt s + Z.of_nat (length raws) - 1))
  /\ last (engine_log s') = Some Call_destroy.
Proof.
  intros Hrun Hlo Hhi. unfold session_run, bind in Hrun.
  pose proof (setup_encoder_frame_cnt E width height s) as [Hsetup _].
  destruct (setup_encoder E width height s) as [v0 s0| |];
    try discriminate Hrun.
  cbn [outcome_world] in Hsetup.
  destruct (encode_frames E raws s0) as [pkts s1| |] eqn:Henc;
    try discriminate Hrun.
  destruct (encode_frames_log E raws s0 s1 pkts Henc) as (_ & _ & _ & Hcnt).
  { lia. }
  { lia. }
  destruct (vpx_codec_destroy E (codec s1)) as [r ctx] eqn:Hdestroy.
  destruct (decide (r = 0)) as [-> | Hr].
  - rewrite (finalise_encoder_released E s1 ctx Hdestroy) in Hrun.
    injection Hrun as <- <-. cbn.
    rewrite !last_snoc, Hcnt, Hsetup.
    rewrite to_int_small by (unfold INT_MAX in *; lia).
    repeat split; reflexivity.
  - destruct (finalise_encoder_failed E s1 r ctx Hdestroy Hr)
      as (s2 & out & Hfail & _).
    rewrite Hfail in Hrun. discriminate Hrun.
Qed.

Lemma session_run_report_witness :
  EXIT_SUCCESS = EXIT_SUCCESS
  /\ frame_cnt
       (outcome_world
          (session_run Toy.steady 64 64
             [Toy.image 16 16; Toy.image 16 16; Toy.image 16 16]
             (outcome_world
                (session_run Toy.steady 64 64
                   [Toy.image 16 16; Toy.image 16 16]
                   (initial_world _ Toy.zero_cfg)))))
     = 2 + 3
  /\ last (stdout
             (outcome_world
                (session_run Toy.steady 64 64
                   [Toy.image 16 16; Toy.image 16 16; Toy.image 16 16]
                   (outcome_world
                      (session_run Toy.steady 64 64
                         [Toy.image 16 16; Toy.image 16 16]
                         (initial_world _ Toy.zero_cfg))))))
     = Some (processed_line (2 + 3 - 1))
  /\ last (engine_log
             (outcome_world
                (session_run Toy.steady 64 64
                   [Toy.image 16 16; Toy.image 16 16; Toy.image 16 16]
                   (outcome_world
                      (session_run Toy.steady 64 64
                         [Toy.image 16 16; Toy.image 16 16]
                         (initial_world _ Toy.zero_cfg))))))
     = Some Call_destroy.
Proof.
  apply (session_run_report Toy.steady 64 64
           [Toy.image 16 16; Toy.image 16 16; Toy.image 16 16]
           (outcome_world
              (session_run Toy.steady 64 64
                 [Toy.image 16 16; Toy.image 16 16]
                 (initial_world _ Toy.zero_cfg)))
           (outcome_world
              (session_run Toy.steady 64 64
                 [Toy.image 16 16; Toy.image 16 16; Toy.image 16 16]
                 (outcome_world
                    (session_run Toy.steady 64 64
                       [Toy.image 16 16; Toy.image 16 16]
                       (initial_world _ Toy.zero_cfg)))))
           EXIT_SUCCESS).
  - vm_compute. reflexivity.
  - vm_compute. discriminate.
  - vm_compute. discriminate.
Defined.

(** ** [read_frame], for every image *)

Lemma frame_bytes_nonneg (img : vpx_image_t) : 0 <= frame_bytes img.
Proof.
  unfold frame_bytes, to_size_t, wrap_unsigned.
  apply Z.mod_pos_bound. lia.
Qed.

(** X17: for every input, image and world, [read_frame] returns.  It takes
    from the front of the input as many bytes as it asks for, or all of
    them when the input is shorter, and leaves the rest for the next call;
    the bytes taken replace the front of the buffer; width and height are
    kept and the format is set to YV12 even when nothing was read.  It
    returns 1 exactly when the input held at least the bytes asked for,
    and 0 otherwise. *)
Theorem read_frame_delivers (E : Engine) (f : list Z) (img : vpx_image_t)
    (s : world E) :
  exists r data rest img' s',
    read_frame E f img s = Returned (r, rest, img') s'
    /\ f = data ++ rest
    /\ Z.of_nat (length data) = Z.min (frame_bytes img) (Z.of_nat (length f))
    /\ planes0 img' = data ++ drop (length data) (planes0 img)
    /\ w img' = w img /\ h img' = h img /\ fmt img' = VPX_IMG_FMT_YV12
    /\ (r = 1 <-> frame_bytes img <= Z.of_nat (length f))
    /\ (r = 0 \/ r = 1).
Proof.
  pose proof (frame_bytes_nonneg img) as Hnn.
  unfold read_frame, fread. fold (frame_bytes img).
  set (data := take (Z.to_nat (frame_bytes img)) f).
  set (rest := drop (Z.to_nat (frame_bytes img)) f).
  assert (Hsplit : f = data ++ rest).
  { unfold data, rest. symmetry. apply take_drop. }
  assert (Hlen : Z.of_nat (length data)
                 = Z.min (frame_bytes img) (Z.of_nat (length f))).
  { unfold data. rewrite length_take. lia. }
  destruct (decide (Z.of_nat (length data) <> frame_bytes img)) as [Hne | Heq].
  - destruct (decide (Z.of_nat (length data) > 0)); step_session;
      eexists 0, data, rest, _, _; (split; [reflexivity|]);
      cbn; repeat split; auto; lia.
  - step_session. eexists 1, data, rest, _, _. split; [reflexivity|].
    cbn. repeat split; auto; lia.
Qed.

(** X18: [read_frame] changes nothing of the process but the standard
    output, and that only on a partial read: the warning is printed
    exactly when the input held at least one byte and fewer than asked
    for; on a full read and on an empty input the world is as before. *)
Theorem read_frame_warning (E : Engine) (f : list Z) (img : vpx_image_t)
    (s : world E) :
  (0 < Z.of_nat (length f) < frame_bytes img ->
   outcome_world (read_frame E f img s)
   = with_stdout (stdout s ++ [mark partial_frame_warning]) s)
  /\ (f = [] \/ frame_bytes img <= Z.of_nat (length f) ->
      outcome_world (read_frame E f img s) = s).
Proof.
  pose proof (frame_bytes_nonneg img) as Hnn.
  unfold read_frame, fread. fold (frame_bytes img).
  assert (Hlen : Z.of_nat (length (take (Z.to_nat (frame_bytes img)) f))
                 = Z.min (frame_bytes img) (Z.of_nat (length f))).
  { rewrite length_take. lia. }
  assert (Hf : f = [] -> Z.of_nat (length f) = 0).
  { intros ->. reflexivity. }
  destruct (decide _) as [Hne | Heq].
  - destruct (decide _) as [Hpos | Hzero]; step_session.
    + split; [reflexivity|]. intros [Hnil | Hfull]; [apply Hf in Hnil|]; lia.
    + split; [|reflexivity]. intros Hpart. lia.
  - step_session. split; [|reflexivity]. intros Hpart. lia.
Qed.

Lemma read_frame_warning_witness :
  outcome_world
    (read_frame Toy.one_packet [1; 2; 3] (Toy.image 16 16)
       (initial_world _ Toy.zero_cfg))
  = with_stdout
      (stdout (initial_world Toy.one_packet Toy.zero_cfg)
       ++ [mark partial_frame_warning])
      (initial_world _ Toy.zero_cfg).
Proof.
  apply (proj1 (read_frame_warning Toy.one_packet [1; 2; 3] (Toy.image 16 16)
                  (initial_world _ Toy.zero_cfg))).
  vm_compute. split; reflexivity.
Defined.

(** X19: when the buffer is at least as long as the bytes asked for,
    [read_frame] keeps its length, so nothing is written past it.  A full
    read into a buffer of exactly the frame size replaces all of it with
    the next frame; after a shorter read the bytes behind the ones read
    are still those of the earlier frame. *)
Theorem read_frame_buffer (E : Engine) (f : list Z) (img : vpx_image_t)
    (s : world E) (r : Z) (rest : list Z) (img' : vpx_image_t)
    (s' : world E) :
  read_frame E f img s = Returned (r, rest, img') s' ->
  frame_bytes img <= Z.of_nat (length (planes0 img)) ->
  length (planes0 img') = length (planes0 img)
  /\ (frame_bytes img = Z.of_nat (length (planes0 img)) -> r = 1 ->
      planes0 img' = take (Z.to_nat (frame_bytes img)) f)
  /\ (r = 0 ->
      planes0 img' = f ++ drop (length f) (planes0 img)
      /\ rest = []).
Proof.
  intros Hrun Hbuf.
  pose proof (frame_bytes_nonneg img) as Hnn.
  unfold read_frame, fread in Hrun. fold (frame_bytes img) in Hrun.
  set (data := take (Z.to_nat (frame_bytes img)) f) in *.
  assert (Hlen : Z.of_nat (length data)
                 = Z.min (frame_bytes img) (Z.of_nat (length f))).
  { unfold data. rewrite length_take. lia. }
  assert (Hr : r = (if decide (Z.of_nat (length data) <> frame_bytes img)
                    then 0 else 1)
               /\ rest = drop (Z.to_nat (frame_bytes img)) f
               /\ planes0 img' = data ++ drop (length data) (planes0 img)).
  { destruct (decide (Z.of_nat (length data) <> frame_bytes img)).
    - destruct (decide (Z.of_nat (length data) > 0));
        revert Hrun; step_session; intros Hrun;
        injection Hrun as <- <- <- <-; auto.
    - revert Hrun; step_session; intros Hrun.
      injection Hrun as <- <- <- <-. auto. }
  destruct Hr as (Hrv & Hrest & Hplanes).
  rewrite Hplanes. split; [|split].
  - rewrite length_app, length_drop. lia.
  - intros Hexact Hone. subst r.
    destruct (decide (Z.of_nat (length data) <> frame_bytes img))
      as [Hne | Heq]; [discriminate Hone|].
    assert (Hfull : Z.of_nat (length data) = frame_bytes img) by lia.
    rewrite drop_ge by lia. apply app_nil_r.
  - intros Hzero. subst r.
    destruct (decide (Z.of_nat (length data) <> frame_bytes img))
      as [Hne | Heq]; [|discriminate Hzero].
    assert (Hshort : (length f <= Z.to_nat (frame_bytes img))%nat) by lia.
    unfold data. rewrite take_ge by exact Hshort.
    split; [reflexivity|].
    rewrite Hrest. apply drop_ge. exact Hshort.
Qed.

Lemma read_frame_buffer_witness :
  planes0 {| fmt := VPX_IMG_FMT_YV12; w := 2; h := 2;
             planes0 := [1; 2; 3; 8; 8; 8] |}
  = [1; 2; 3]
    ++ drop (length [1; 2; 3])
         (planes0 {| fmt := 0; w := 2; h := 2;
                     planes0 := [8; 8; 8; 8; 8; 8] |})
  /\ [] = ([] : list Z).
Proof.
  apply (proj2 (proj2
           (read_frame_buffer Toy.one_packet [1; 2; 3]
              {| fmt := 0; w := 2; h := 2; planes0 := [8; 8; 8; 8; 8; 8] |}
              (initial_world _ Toy.zero_cfg) 0 []
              {| fmt := VPX_IMG_FMT_YV12; w := 2; h := 2;
                 planes0 := [1; 2; 3; 8; 8; 8] |}
              (with_stdout [mark partial_frame_warning]
                 (initial_world _ Toy.zero_cfg))
              ltac:(vm_compute; reflexivity)
              ltac:(vm_compute; discriminate)))).
  reflexivity.
Defined.

(** ** The file header of a session *)

(** X20: after [setup_encoder] on a valid resolution with library
    defaults of non-zero dimensions, in a writing pass mode and with a
    non-negative time base, the header [write_ivf_file_header] makes from
    the session's [cfg] carries the session's width and height modulo
    [2 ^ 16] (so the dimensions themselves when they are below 65536, and
    a truncated value for a larger valid resolution), and the library's
    default time base as rate and scale. *)
Theorem session_header_fields (E : Engine) (width height : Z) (s : world E)
    (c : vpx_codec_enc_cfg_t) (n : Z) :
  valid_resolution width height ->
  vpx_codec_enc_config_default E (cfg s) 0 = (0, c) ->
  g_w c <> 0 -> g_h c <> 0 ->
  g_pass c = VPX_RC_ONE_PASS \/ g_pass c = VPX_RC_LAST_PASS ->
  0 <= den (g_timebase c) <= UINT_MAX ->
  0 <= num (g_timebase c) <= UINT_MAX ->
  exists hdr,
    spec_parse_ivf_file_header
      (write_ivf_file_header []
         (cfg (outcome_world (setup_encoder E width height s))) n)
    = Some hdr
    /\ ivf_width hdr = width mod 2 ^ 16
    /\ ivf_height hdr = height mod 2 ^ 16
    /\ (width < 2 ^ 16 -> ivf_width hdr = width)
    /\ (height < 2 ^ 16 -> ivf_height hdr = height)
    /\ ivf_rate hdr = den (g_timebase c)
    /\ ivf_scale hdr = num (g_timebase c)
    /\ ivf_frame_count hdr = n mod 2 ^ 32.
Proof.
  intros Hv Hdef Hw Hh Hpass Hden Hnum.
  rewrite (setup_encoder_cfg E width height s c Hv Hdef Hw Hh).
  fold (session_cfg width height c).
  assert (Hpass' : g_pass (session_cfg width height c) = VPX_RC_ONE_PASS
                   \/ g_pass (session_cfg width height c) = VPX_RC_LAST_PASS)
    by exact Hpass.
  pose proof (ivf_file_header_read_back [] (session_cfg width height c) n
                Hpass') as Hread.
  rewrite drop_0 in Hread.
  eexists. split; [exact Hread|]. cbn.
  destruct Hv as (Hw16 & _ & Hh16 & _).
  assert (Hmod : forall z, to_uint (to_uint z) mod 2 ^ 16 = z mod 2 ^ 16).
  { intros z. unfold to_uint, wrap_unsigned. rewrite Z.mod_mod by lia.
    change (2 ^ 32) with (2 ^ 16 * 2 ^ 16).
    rewrite Z.rem_mul_r by lia.
    rewrite Z.mul_comm, Z.mod_add by lia. apply Z.mod_mod. lia. }
  rewrite !Hmod.
  split; [reflexivity|]. split; [reflexivity|].
  split; [intros Hlt; apply Z.mod_small; lia|].
  split; [intros Hlt; apply Z.mod_small; lia|].
  split; [apply to_uint_small; exact Hden|].
  split; [apply to_uint_small; exact Hnum|].
  reflexivity.
Qed.

Lemma session_header_fields_witness :
  exists hdr,
    spec_parse_ivf_file_header
      (write_ivf_file_header []
         (cfg (outcome_world
                 (setup_encoder Toy.one_packet 65536 480
                    (initial_world _ Toy.zero_cfg)))) 7)
    = Some hdr
    /\ ivf_width hdr = 65536 mod 2 ^ 16
    /\ ivf_height hdr = 480 mod 2 ^ 16
    /\ (65536 < 2 ^ 16 -> ivf_width hdr = 65536)
    /\ (480 < 2 ^ 16 -> ivf_height hdr = 480)
    /\ ivf_rate hdr = den (g_timebase Toy.default_cfg)
    /\ ivf_scale hdr = num (g_timebase Toy.default_cfg)
    /\ ivf_frame_count hdr = 7 mod 2 ^ 32.
Proof.
  apply (session_header_fields Toy.one_packet 65536 480
           (initial_world _ Toy.zero_cfg) Toy.default_cfg 7).
  - unfold valid_resolution. repeat split; try lia; reflexivity.
  - reflexivity.
  - discriminate.
  - discriminate.
  - left. reflexivity.
  - unfold UINT_MAX. simpl. lia.
  - unfold UINT_MAX. simpl. lia.
Defined.
